(** * cifr-ai: the command-to-action dispatch core

    A shallow embedding of [backend/services/llm_service.py],
    [backend/services/spotify_service.py] and [backend/main.py].

    Python values are an inductive [pyval]; a [dict] with string keys is a
    [gmap string pyval].  The language model, the Spotify Web API, the file
    system and the WebSocket peer are external: every call to them goes
    through one oracle over an abstract world state and is recorded, in
    order, in a call log.  Python exceptions are values of [exn]; a function
    that can raise lives in the monad [M], whose [try_except] is Python's
    [try: ... except Exception as e: ...].  Logging is not modelled, except
    where a log line evaluates an expression that can raise. *)

From Stdlib Require Import ZArith Floats.SpecFloat.
From stdpp Require Import gmap strings list fin_maps.

Set Warnings "-register-all".
Open Scope string_scope.
Open Scope list_scope.

(** ** Python values *)

(** What [json.loads] and the Spotify client hand back: [None], booleans,
    integers, floats, strings, lists and string-keyed dicts. *)
Inductive pyval :=
| PNone
| PBool (b : bool)
| PInt (n : Z)
| PFloat (f : spec_float)
| PStr (s : string)
| PList (l : list pyval)
| PDict (d : gmap string pyval).

Abbreviation dict := (gmap string pyval).

(** [bool(v)]: the truth value Python's [if v:] and [not v] test. *)
Definition truthy (v : pyval) : bool :=
  match v with
  | PNone => false
  | PBool b => b
  | PInt n => negb (n =? 0)%Z
  | PFloat (S754_zero _) => false
  | PFloat _ => true
  | PStr s => negb (String.eqb s "")
  | PList [] => false
  | PList (_ :: _) => true
  | PDict d => negb (Nat.eqb (size d) 0)
  end.

(** [v == "literal"]: only a string equals a string. *)
Definition eq_str (v : pyval) (s : string) : bool :=
  match v with
  | PStr t => String.eqb t s
  | _ => false
  end.

(** [v in ["a", "b", ...]] for a list of string literals. *)
Definition in_strs (v : pyval) (l : list string) : bool :=
  existsb (eq_str v) l.

(** Truth value of an [Optional[str]] taken from the process environment. *)
Definition truthy_env (o : option string) : bool :=
  match o with
  | Some s => negb (String.eqb s "")
  | None => false
  end.

Definition opt_str (o : option string) : pyval :=
  match o with
  | Some s => PStr s
  | None => PNone
  end.

(** A dict display [{k1: v1, k2: v2, ...}]: later keys win. *)
Definition mkdict (l : list (string * pyval)) : dict :=
  fold_left (fun d kv => <[kv.1 := kv.2]> d) l ∅.

(** ** Exceptions *)

(** The exceptions the program can meet, all subclasses of [Exception]:
    the Spotify client's own, with its HTTP status and its [str]; any other
    error of an external library, with its [str]; the errors of Python's
    own operations; the response model's; the channel's. *)
Inductive exn :=
| SpotifyException (http_status : Z) (description : string)
| LibraryError (description : string)
| AttributeError (obj : pyval) (attr : string)
| KeyError (key : pyval)
| IndexError (obj : pyval)
| TypeError (culprit : pyval)
| ValidationError (field : string)
| WebSocketDisconnect.

Inductive outcome (A : Type) :=
| Returned (a : A)
| Raised (e : exn).
Arguments Returned {A} a.
Arguments Raised {A} e.

(** Subscripts.  [v[k]] with a string key, [v[0]]. *)
Definition getitem (v : pyval) (k : string) : exn + pyval :=
  match v with
  | PDict d =>
      match d !! k with
      | Some x => inr x
      | None => inl (KeyError (PStr k))
      end
  | _ => inl (TypeError v)
  end.

Definition getitem0 (v : pyval) : exn + pyval :=
  match v with
  | PList (x :: _) => inr x
  | PList [] => inl (IndexError v)
  | PStr (String c _) => inr (PStr (String c ""))
  | PStr "" => inl (IndexError v)
  | PDict _ => inl (KeyError (PInt 0))
  | _ => inl (TypeError v)
  end.

(** [next((d for d in l if d['is_active']), None)] over the elements of a
    list. *)
Fixpoint first_active (l : list pyval) : exn + pyval :=
  match l with
  | [] => inr PNone
  | d :: rest =>
      match getitem d "is_active" with
      | inl e => inl e
      | inr a => if truthy a then inr d else first_active rest
      end
  end.

(** [[track['uri'] for track in l]]. *)
Fixpoint uris_of (l : list pyval) : exn + list pyval :=
  match l with
  | [] => inr []
  | t :: rest =>
      match getitem t "uri" with
      | inl e => inl e
      | inr u =>
          match uris_of rest with
          | inl e => inl e
          | inr us => inr (u :: us)
          end
      end
  end.

(** ** The external collaborators *)

(** The chat-completion objects of the model client, and the keyword
    arguments of [client.chat.completions.create]. *)
Module groq.
Record Function := { name : string; arguments : string }.
Record ToolCall := { function : Function }.
Record ChatMessage := {
  content : option string;
  tool_calls : option (list ToolCall)
}.
Record Choice := { message : ChatMessage }.
Record ChatCompletion := { choices : list Choice }.

Record ChatRequest := {
  model : string;
  messages : list dict;
  tools : list pyval;
  tool_choice : string;
  temperature : spec_float;
  max_tokens : Z
}.
End groq.

(** [SpotifyOAuth(...)] and [spotipy.Spotify(auth_manager=...)] only store
    their arguments. *)
Record SpotifyOAuth := {
  client_id : option string;
  client_secret : option string;
  redirect_uri : option string;
  oauth_scope : string;
  cache_path : string;
  open_browser : bool
}.

Record Spotify := { auth_manager : SpotifyOAuth }.

(** One constructor per external operation the three modules invoke, indexed
    by the type of what it returns. *)
Inductive Call : Type -> Type :=
| chat_completions_create (req : groq.ChatRequest) : Call groq.ChatCompletion
| os_path_exists (path : string) : Call bool
| get_cached_token (am : SpotifyOAuth) : Call pyval
| is_token_expired (am : SpotifyOAuth) (token_info : pyval) : Call bool
| refresh_access_token (am : SpotifyOAuth) (refresh_token : pyval) : Call pyval
| current_user : Call pyval
| devices : Call pyval
| search (q : pyval) (type : string) (limit : Z) : Call pyval
| artist_top_tracks (artist_id : pyval) : Call pyval
| start_playback (device : pyval) (context_uri : option pyval)
    (uris : option (list pyval)) : Call pyval
| pause_playback (device : pyval) : Call pyval
| next_track (device : pyval) : Call pyval
| previous_track (device : pyval) : Call pyval
| current_playback : Call pyval
| websocket_accept : Call unit
| websocket_send_json (payload : dict) : Call unit.

Definition Event : Type := { R : Type & Call R }.
Definition event {R} (c : Call R) : Event := existT R c.

(** [Config]'s values read from the process environment. *)
Record Environ := {
  GROQ_API_KEY : option string;
  SPOTIFY_CLIENT_ID : option string;
  SPOTIFY_CLIENT_SECRET : option string;
  SPOTIFY_REDIRECT_URI : option string
}.

(** Everything the program does not own: the world behind the network and
    file-system calls, [json.loads], the environment, and the texts the
    Python runtime gives to [str(v)] of a non-string value and to [str(e)]
    of an exception that does not carry its own description. *)
Class Host (W : Type) := {
  oracle : forall R, Call R -> W -> (exn + R) * W;
  json_loads : string -> exn + pyval;
  environ : Environ;
  str_value : pyval -> string;
  str_builtin : exn -> string
}.

(** [str(e)]. *)
Definition str_exn `{Host W} (e : exn) : string :=
  match e with
  | SpotifyException _ d => d
  | LibraryError d => d
  | _ => str_builtin e
  end.

(** A value inside an f-string. *)
Definition fmt `{Host W} (v : pyval) : string :=
  match v with
  | PStr s => s
  | _ => str_value v
  end.

(** ** The monad of Python code *)

Definition M (S A : Type) : Type := S -> outcome A * S.

Definition ret {S A} (a : A) : M S A := fun s => (Returned a, s).

Definition bind {S A B} (m : M S A) (k : A -> M S B) : M S B :=
  fun s =>
    match m s with
    | (Returned a, s') => k a s'
    | (Raised e, s') => (Raised e, s')
    end.

Definition raise {S A} (e : exn) : M S A := fun s => (Raised e, s).

(** [try: m  except Exception as e: h e]. *)
Definition try_except {S A} (m : M S A) (h : exn -> M S A) : M S A :=
  fun s =>
    match m s with
    | (Returned a, s') => (Returned a, s')
    | (Raised e, s') => h e s'
    end.

Definition gets {S A} (f : S -> A) : M S A := fun s => (Returned (f s), s).
Definition modify {S} (f : S -> S) : M S unit := fun s => (Returned tt, f s).

(** An expression that either has a value or raises. *)
Definition eval {S A} (r : exn + A) : M S A :=
  match r with
  | inl e => raise e
  | inr a => ret a
  end.

Declare Scope py_scope.
Delimit Scope py_scope with py.
Notation "x <- c ;; k" := (bind c (fun x => k))
  (at level 100, c at next level, right associativity) : py_scope.
Notation "c ;;; k" := (bind c (fun _ => k))
  (at level 100, right associativity) : py_scope.
Open Scope py_scope.

(** The state outside the process: the world and the log of the calls made
    to it, oldest first. *)
Record Ext (W : Type) := { world : W; calls : list Event }.
Arguments world {W} _.
Arguments calls {W} _.

(** Perform an external call: log it, let the world answer. *)
Definition call `{Host W} {R} (c : Call R) : M (Ext W) R :=
  fun s =>
    let (r, w') := oracle R c (world s) in
    (match r with inl e => Raised e | inr v => Returned v end,
     {| world := w'; calls := calls s ++ [event c] |}).

(** ** backend/services/spotify_service.py *)

(** The fields of a [SpotifyService] object.  [sp] is the client handle
    ([None] until initialization succeeds), [device_id] the cached playback
    device ([None] or whatever the device listing gave as an id). *)
Record SpotifyService := {
  scope : string;
  sp : option Spotify;
  device_id : pyval
}.

(** The state a method of the service runs in: its object and the outside. *)
Record Method (W : Type) := { self : SpotifyService; ext : Ext W }.
Arguments self {W} _.
Arguments ext {W} _.

(** The state of the server process: the module-level singleton
    [_spotify_service] and the outside. *)
Record Process (W : Type) := {
  _spotify_service : option SpotifyService;
  process_ext : Ext W
}.
Arguments _spotify_service {W} _.
Arguments process_ext {W} _.

Module spotify_service.
Section spotify_service.
Context `{Host W}.

Definition outside {A} (m : M (Ext W) A) : M (Method W) A :=
  fun s =>
    let (r, e) := m (ext s) in
    (r, {| self := self s; ext := e |}).

(** [self.sp.<attr>(...)]: an attribute error when the handle is [None]. *)
Definition api {R} (attr : string) (c : Call R) : M (Method W) R :=
  client <- gets (fun s => sp (self s));;
  match client with
  | Some _ => outside (call c)
  | None => raise (AttributeError PNone attr)
  end.

Definition set_sp (v : option Spotify) : M (Method W) unit :=
  modify (fun s =>
    {| self := {| scope := scope (self s); sp := v;
                  device_id := device_id (self s) |};
       ext := ext s |}).

Definition set_device_id (v : pyval) : M (Method W) unit :=
  modify (fun s =>
    {| self := {| scope := scope (self s); sp := sp (self s);
                  device_id := v |};
       ext := ext s |}).

Definition item {S} (v : pyval) (k : string) : M S pyval := eval (getitem v k).
Definition item0 {S} (v : pyval) : M S pyval := eval (getitem0 v).

(** Iterating anything but a list raises at once or at the first element's
    subscript; the model raises a [TypeError] at the container. *)
Definition elements {S} (v : pyval) : M S (list pyval) :=
  match v with
  | PList l => ret l
  | _ => raise (TypeError v)
  end.

Definition status_message (status message : string) : dict :=
  mkdict [("status", PStr status); ("message", PStr message)].

Definition not_initialized : dict :=
  status_message "error" "Spotify not initialized. Please run auth_spotify_fixed.py".

(** Get the active device or first available device. *)
Definition _get_device : M (Method W) unit :=
  try_except
    (devs <- api "devices" devices;;
     listed <- item devs "devices";;
     if truthy listed then
       l <- elements listed;;
       active_device <- eval (first_active l);;
       if truthy active_device then
         id <- item active_device "id";;
         set_device_id id;;;
         _ <- item active_device "name";;
         ret tt
       else
         first <- item0 listed;;
         id <- item first "id";;
         set_device_id id;;;
         _ <- item first "name";;
         ret tt
     else
       set_device_id PNone)
    (fun _ => ret tt).

(** Initialize Spotify client with OAuth. *)
Definition _initialize_spotify : M (Method W) unit :=
  try_except
    (if negb (truthy_env (SPOTIFY_CLIENT_ID environ)
              && truthy_env (SPOTIFY_CLIENT_SECRET environ)
              && truthy_env (SPOTIFY_REDIRECT_URI environ))
     then ret tt
     else
       let cache := ".spotify_cache" in
       present <- outside (call (os_path_exists cache));;
       if negb present then ret tt
       else
         sc <- gets (fun s => scope (self s));;
         let am := {| client_id := SPOTIFY_CLIENT_ID environ;
                      client_secret := SPOTIFY_CLIENT_SECRET environ;
                      redirect_uri := SPOTIFY_REDIRECT_URI environ;
                      oauth_scope := sc;
                      cache_path := cache;
                      open_browser := false |} in
         token_info <- outside (call (get_cached_token am));;
         if negb (truthy token_info) then ret tt
         else
           expired <- outside (call (is_token_expired am token_info));;
           (if expired : bool then
              refresh_token <- item token_info "refresh_token";;
              _ <- outside (call (refresh_access_token am refresh_token));;
              ret tt
            else ret tt);;;
           set_sp (Some {| auth_manager := am |});;;
           connected <-
             try_except
               (user <- api "current_user" current_user;;
                _ <- item user "display_name";;
                ret true)
               (fun _ => set_sp None;;; ret false);;
           if connected : bool then _get_device else ret tt)
    (fun _ => set_sp None).

Definition __init__ : M (Ext W) SpotifyService :=
  fun e =>
    let fresh :=
      {| scope := "user-read-playback-state user-modify-playback-state user-read-currently-playing playlist-read-private playlist-read-collaborative user-library-read";
         sp := None;
         device_id := PNone |} in
    let (r, s) := _initialize_spotify {| self := fresh; ext := e |} in
    (match r with
     | Returned _ => Returned (self s)
     | Raised x => Raised x
     end, ext s).

Definition type_mapping : gmap string string :=
  <["album" := "album"]> (<["playlist" := "playlist"]>
    (<["artist" := "artist"]> (<["track" := "track"]> ∅))).

(** [type_mapping.get(search_type, "track")]: a list or a dict is not
    hashable. *)
Definition type_mapping_get (search_type : pyval) : exn + string :=
  match search_type with
  | PStr s => inr (default "track" (type_mapping !! s))
  | PList _ | PDict _ => inl (TypeError search_type)
  | _ => inr "track"
  end.

Definition search_and_play_except (e : exn) : dict :=
  match e with
  | SpotifyException http_status _ =>
      if (http_status =? 404)%Z then
        status_message "error" "Device not found. Please open Spotify and start playing something first."
      else if (http_status =? 403)%Z then
        status_message "error" "Premium account required for playback control."
      else
        status_message "error" ("Spotify error: " +:+ str_exn e)
  | _ => status_message "error" (str_exn e)
  end.

(** [results[kind]['items']] when the search was for that type. *)
Definition hit (spotify_type want kind : string) (results : pyval)
    : M (Method W) bool :=
  if String.eqb spotify_type want then
    group <- item results kind;;
    items <- item group "items";;
    ret (truthy items)
  else ret false.

Definition first_item (results : pyval) (kind : string) : M (Method W) pyval :=
  group <- item results kind;;
  items <- item group "items";;
  item0 items.

Definition first_artist_name (v : pyval) : M (Method W) pyval :=
  artists <- item v "artists";;
  a <- item0 artists;;
  item a "name".

(** Search for content and play it. *)
Definition search_and_play (query search_type : pyval) : M (Method W) dict :=
  client <- gets (fun s => sp (self s));;
  match client with
  | None => ret not_initialized
  | Some _ =>
    let search_part : M (Method W) dict :=
      spotify_type <- eval (type_mapping_get search_type);;
      results <- api "search" (search query spotify_type 10);;
      played <-
        (is_track <- hit spotify_type "track" "tracks" results;;
         if is_track : bool then
           track <- first_item results "tracks";;
           device <- gets (fun s => device_id (self s));;
           uri <- item track "uri";;
           _ <- api "start_playback" (start_playback device None (Some [uri]));;
           track_name <- item track "name";;
           artist_name <- first_artist_name track;;
           ret (Some (mkdict
             [("status", PStr "success");
              ("message", PStr ("Playing: " +:+ fmt track_name +:+ " by " +:+ fmt artist_name));
              ("track", track_name);
              ("artist", artist_name)]))
         else
         is_artist <- hit spotify_type "artist" "artists" results;;
         if is_artist : bool then
           artist <- first_item results "artists";;
           artist_id <- item artist "id";;
           top_tracks <- api "artist_top_tracks" (artist_top_tracks artist_id);;
           top <- item top_tracks "tracks";;
           if truthy top then
             l <- elements top;;
             track_uris <- eval (uris_of (firstn 10 l));;
             device <- gets (fun s => device_id (self s));;
             _ <- api "start_playback" (start_playback device None (Some track_uris));;
             artist_name <- item artist "name";;
             ret (Some (mkdict
               [("status", PStr "success");
                ("message", PStr ("Playing top tracks by " +:+ fmt artist_name));
                ("artist", artist_name)]))
           else ret None
         else
         is_playlist <- hit spotify_type "playlist" "playlists" results;;
         if is_playlist : bool then
           playlist <- first_item results "playlists";;
           device <- gets (fun s => device_id (self s));;
           uri <- item playlist "uri";;
           _ <- api "start_playback" (start_playback device (Some uri) None);;
           playlist_name <- item playlist "name";;
           ret (Some (mkdict
             [("status", PStr "success");
              ("message", PStr ("Playing playlist: " +:+ fmt playlist_name));
              ("playlist", playlist_name)]))
         else
         is_album <- hit spotify_type "album" "albums" results;;
         if is_album : bool then
           album <- first_item results "albums";;
           device <- gets (fun s => device_id (self s));;
           uri <- item album "uri";;
           _ <- api "start_playback" (start_playback device (Some uri) None);;
           album_name <- item album "name";;
           artist_name <- first_artist_name album;;
           ret (Some (mkdict
             [("status", PStr "success");
              ("message", PStr ("Playing album: " +:+ fmt album_name +:+ " by " +:+ fmt artist_name));
              ("album", album_name);
              ("artist", artist_name)]))
         else ret None);;
      match played with
      | Some result => ret result
      | None =>
          ret (status_message "error"
                 ("No " +:+ fmt search_type +:+ " found for '" +:+ fmt query +:+ "'"))
      end in
    try_except
      (cached <- gets (fun s => device_id (self s));;
       if negb (truthy cached) then
         _get_device;;;
         found <- gets (fun s => device_id (self s));;
         if negb (truthy found) then
           ret (status_message "error" "No Spotify device available. Please open Spotify.")
         else search_part
       else search_part)
      (fun e => ret (search_and_play_except e))
  end.

Definition control_playback_except (e : exn) : dict :=
  match e with
  | SpotifyException http_status _ =>
      if (http_status =? 404)%Z then
        status_message "error" "No active device found. Please open Spotify."
      else if (http_status =? 403)%Z then
        status_message "error" "Premium account required for playback control."
      else
        status_message "error" ("Spotify error: " +:+ str_exn e)
  | _ => status_message "error" (str_exn e)
  end.

(** Control playback (play, pause, skip, previous). *)
Definition control_playback (action : pyval) : M (Method W) dict :=
  client <- gets (fun s => sp (self s));;
  match client with
  | None => ret not_initialized
  | Some _ =>
    try_except
      (if eq_str action "play" then
         device <- gets (fun s => device_id (self s));;
         _ <- api "start_playback" (start_playback device None None);;
         ret (status_message "success" "Playback resumed")
       else if eq_str action "pause" then
         device <- gets (fun s => device_id (self s));;
         _ <- api "pause_playback" (pause_playback device);;
         ret (status_message "success" "Playback paused")
       else if eq_str action "skip" || eq_str action "next" then
         device <- gets (fun s => device_id (self s));;
         _ <- api "next_track" (next_track device);;
         ret (status_message "success" "Skipped to next track")
       else if eq_str action "previous" then
         device <- gets (fun s => device_id (self s));;
         _ <- api "previous_track" (previous_track device);;
         ret (status_message "success" "Playing previous track")
       else
         ret (status_message "error" ("Unknown action: " +:+ fmt action)))
      (fun e => ret (control_playback_except e))
  end.

(** Get currently playing track. *)
Definition get_current_track : M (Method W) dict :=
  client <- gets (fun s => sp (self s));;
  match client with
  | None => ret not_initialized
  | Some _ =>
    try_except
      (current <- api "current_playback" current_playback;;
       has_item <-
         (if truthy current then
            it <- item current "item";; ret (truthy it)
          else ret false);;
       if has_item : bool then
         track <- item current "item";;
         is_playing <- item current "is_playing";;
         track_name <- item track "name";;
         artist_name <- first_artist_name track;;
         album <- item track "album";;
         album_name <- item album "name";;
         progress <- item current "progress_ms";;
         duration <- item track "duration_ms";;
         ret (mkdict
           [("status", PStr "success");
            ("is_playing", is_playing);
            ("track", track_name);
            ("artist", artist_name);
            ("album", album_name);
            ("progress", progress);
            ("duration", duration)])
       else
         ret (status_message "success" "No track currently playing"))
      (fun e => ret (status_message "error" (str_exn e)))
  end.

(** Get or create Spotify service instance. *)
Definition get_spotify_service : M (Process W) SpotifyService :=
  fun p =>
    match _spotify_service p with
    | Some service => (Returned service, p)
    | None =>
        let (r, e) := __init__ (process_ext p) in
        match r with
        | Returned service =>
            (Returned service,
             {| _spotify_service := Some service; process_ext := e |})
        | Raised x =>
            (Raised x, {| _spotify_service := None; process_ext := e |})
        end
    end.

(** A method call on the singleton: the object it mutates is the one the
    module-level variable refers to. *)
Definition method {A} (service : SpotifyService) (m : M (Method W) A)
    : M (Process W) A :=
  fun p =>
    let (r, s) := m {| self := service; ext := process_ext p |} in
    (r, {| _spotify_service := Some (self s); process_ext := ext s |}).

End spotify_service.
End spotify_service.

(** ** backend/config.py *)

Module Config.
Definition MODEL_NAME : string := "llama-3.3-70b-versatile".
(** The double nearest to 0.3. *)
Definition TEMPERATURE : spec_float := S754_finite false 5404319552844595 (-54).
Definition MAX_TOKENS : Z := 1024.
End Config.

(** ** backend/services/llm_service.py *)

Module llm_service.
Section llm_service.
Context `{Host W}.

Definition obj (l : list (string * pyval)) : pyval := PDict (mkdict l).
Definition strs (l : list string) : pyval := PList (PStr <$> l).

Definition _define_tools : list pyval :=
  [ obj [("type", PStr "function");
         ("function", obj
           [("name", PStr "control_spotify");
            ("description", PStr "Control Spotify playback and search for music");
            ("parameters", obj
              [("type", PStr "object");
               ("properties", obj
                 [("action", obj
                    [("type", PStr "string");
                     ("enum", strs ["play"; "pause"; "skip"; "previous"; "search"; "current"]);
                     ("description", PStr "The action to perform")]);
                  ("query", obj
                    [("type", PStr "string");
                     ("description", PStr "Search query for songs, artists, or playlists")]);
                  ("type", obj
                    [("type", PStr "string");
                     ("enum", strs ["track"; "artist"; "playlist"; "album"]);
                     ("description", PStr "Type of content to search for")])]);
               ("required", strs ["action"])])])];
    obj [("type", PStr "function");
         ("function", obj
           [("name", PStr "manage_calendar");
            ("description", PStr "Create, update, delete or query calendar events");
            ("parameters", obj
              [("type", PStr "object");
               ("properties", obj
                 [("action", obj
                    [("type", PStr "string");
                     ("enum", strs ["create"; "update"; "delete"; "query"; "list"]);
                     ("description", PStr "The calendar action to perform")]);
                  ("event_data", obj
                    [("type", PStr "object");
                     ("properties", obj
                       [("title", obj [("type", PStr "string")]);
                        ("date", obj [("type", PStr "string");
                                      ("description", PStr "Date in YYYY-MM-DD format")]);
                        ("time", obj [("type", PStr "string");
                                      ("description", PStr "Time in HH:MM format")]);
                        ("duration", obj [("type", PStr "integer");
                                          ("description", PStr "Duration in minutes")]);
                        ("description", obj [("type", PStr "string")]);
                        ("attendees", obj
                          [("type", PStr "array");
                           ("items", obj [("type", PStr "string")])])])]);
                  ("query_params", obj
                    [("type", PStr "object");
                     ("properties", obj
                       [("date", obj [("type", PStr "string")]);
                        ("days_ahead", obj [("type", PStr "integer")])])])]);
               ("required", strs ["action"])])])];
    obj [("type", PStr "function");
         ("function", obj
           [("name", PStr "general_query");
            ("description", PStr "Answer general questions that don't require specific tools");
            ("parameters", obj
              [("type", PStr "object");
               ("properties", obj
                 [("response", obj
                    [("type", PStr "string");
                     ("description", PStr "The response to the user's question")])]);
               ("required", strs ["response"])])])] ].

Definition system_message : dict :=
  mkdict
    [("role", PStr "system");
     ("content", PStr "You are a helpful voice assistant with access to Spotify and Calendar.
                Be concise in responses since this is voice interaction.
                Current date/time context will be provided when needed.
                Always use the appropriate tool for user requests.")].

Definition user_message (user_input : string) : dict :=
  mkdict [("role", PStr "user"); ("content", PStr user_input)].

(** The message list of one call: the system instruction, the whole
    context if one is given and not empty ([if context:
    messages.extend(context)]), the user's text. *)
Definition build_messages (user_input : string) (context : option (list dict))
    : list dict :=
  let messages := [system_message] in
  let messages :=
    match context with
    | Some (first :: later) => (messages ++ first :: later)%list
    | _ => messages
    end in
  (messages ++ [user_message user_input])%list.

Definition request (messages : list dict) : groq.ChatRequest :=
  {| groq.model := Config.MODEL_NAME;
     groq.messages := messages;
     groq.tools := _define_tools;
     groq.tool_choice := "auto";
     groq.temperature := Config.TEMPERATURE;
     groq.max_tokens := Config.MAX_TOKENS |}.

Definition error_result (description : string) : dict :=
  mkdict [("type", PStr "error"); ("error", PStr description)].

(** Process user command and return structured response. *)
Definition process_command (user_input : string) (context : option (list dict))
    : M (Ext W) dict :=
  let messages := build_messages user_input context in
  try_except
    (response <- call (chat_completions_create (request messages));;
     choice <- match groq.choices response with
               | c :: _ => ret c
               | [] => raise (IndexError (PList []))
               end;;
     let msg := groq.message choice in
     match groq.tool_calls msg with
     | Some (tool_call :: _) =>
         let function_name := groq.name (groq.function tool_call) in
         function_args <-
           eval (json_loads (groq.arguments (groq.function tool_call)));;
         ret (mkdict
           [("type", PStr "tool_call");
            ("tool", PStr function_name);
            ("arguments", function_args);
            ("raw_response", opt_str (groq.content msg))])
     | _ =>
         ret (mkdict
           [("type", PStr "direct_response");
            ("content", opt_str (groq.content msg))])
     end)
    (fun e => ret (error_result (str_exn e))).

End llm_service.
End llm_service.

(** ** backend/main.py *)

Module main.

Record CommandRequest := {
  text : string;
  context : option (list dict)
}.

Record CommandResponse := {
  type : string;
  tool : option string;
  arguments : option dict;
  content : option string;
  error : option string;
  execution_result : option dict
}.

(** Field validation of the response model: a [str] field takes a string,
    a [Dict] field a dict, an [Optional] field also [None] or nothing;
    keys that are not fields are ignored. *)
Definition required_str (field : string) (v : option pyval) : exn + string :=
  match v with
  | Some (PStr s) => inr s
  | _ => inl (ValidationError field)
  end.

Definition optional_str (field : string) (v : option pyval)
    : exn + option string :=
  match v with
  | None | Some PNone => inr None
  | Some (PStr s) => inr (Some s)
  | _ => inl (ValidationError field)
  end.

Definition optional_dict (field : string) (v : option pyval)
    : exn + option dict :=
  match v with
  | None | Some PNone => inr None
  | Some (PDict d) => inr (Some d)
  | _ => inl (ValidationError field)
  end.

(** The [CommandResponse] built from the keys of [result]. *)
Definition CommandResponse_of (result : dict) : exn + CommandResponse :=
  match required_str "type" (result !! "type"),
        optional_str "tool" (result !! "tool"),
        optional_dict "arguments" (result !! "arguments"),
        optional_str "content" (result !! "content"),
        optional_str "error" (result !! "error"),
        optional_dict "execution_result" (result !! "execution_result") with
  | inr ty, inr tl, inr args, inr c, inr err, inr exec =>
      inr {| type := ty; tool := tl; arguments := args; content := c;
             error := err; execution_result := exec |}
  | inl e, _, _, _, _, _
  | _, inl e, _, _, _, _
  | _, _, inl e, _, _, _
  | _, _, _, inl e, _, _
  | _, _, _, _, inl e, _
  | _, _, _, _, _, inl e => inl e
  end.

Section main.
Context `{Host W}.
Import spotify_service.

Definition inside {A} (m : M (Ext W) A) : M (Process W) A :=
  fun p =>
    let (r, e) := m (process_ext p) in
    (r, {| _spotify_service := _spotify_service p; process_ext := e |}).

(** [arguments.get(key, default)]: only a dict has [get]. *)
Definition get {S} (arguments : pyval) (key : string) (default : pyval)
    : M S pyval :=
  match arguments with
  | PDict d => ret (from_option id default (d !! key))
  | _ => raise (AttributeError arguments "get")
  end.

Definition unknown_tool (tool_name : pyval) : dict :=
  status_message "error" ("Unknown tool: " +:+ fmt tool_name).

(** Execute the actual tool call based on LLM response.  The branches
    give [Some] result where the source has a [return], and [None] where
    control leaves the [if] chain and reaches the last line. *)
Definition execute_tool_call (tool_name arguments : pyval)
    : M (Process W) dict :=
  returned <-
    (if eq_str tool_name "control_spotify" then
       spotify <- get_spotify_service;;
       action <- get arguments "action" PNone;;
       if in_strs action ["play"; "pause"; "skip"; "previous"] then
         r <- method spotify (control_playback action);;
         ret (Some r)
       else if eq_str action "search" then
         query <- get arguments "query" (PStr "");;
         search_type <- get arguments "type" (PStr "track");;
         r <- method spotify (search_and_play query search_type);;
         ret (Some r)
       else if eq_str action "current" then
         r <- method spotify get_current_track;;
         ret (Some r)
       else ret None
     else if eq_str tool_name "manage_calendar" then
       ret (Some (status_message "info" "Calendar integration coming soon!"))
     else if eq_str tool_name "general_query" then
       response <- get arguments "response" (PStr "");;
       ret (Some (mkdict [("status", PStr "success"); ("message", response)]))
     else ret None);;
  match returned with
  | Some result => ret result
  | None => ret (unknown_tool tool_name)
  end.

(** [result["type"] == "tool_call" and result.get("tool")]. *)
Definition is_tool_call {S} (result : dict) : M S bool :=
  ty <- eval (getitem (PDict result) "type");;
  if eq_str ty "tool_call" then
    ret (truthy (from_option id PNone (result !! "tool")))
  else ret false.

(** Process a voice command through the LLM. *)
Definition process_command (request : CommandRequest)
    : M (Process W) CommandResponse :=
  result <- inside (llm_service.process_command (text request) (context request));;
  to_execute <- is_tool_call result;;
  result <-
    (if to_execute : bool then
       tool_name <- eval (getitem (PDict result) "tool");;
       execution_result <-
         execute_tool_call tool_name
           (from_option id (PDict ∅) (result !! "arguments"));;
       ret (<["execution_result" := PDict execution_result]> result)
     else ret result);;
  eval (CommandResponse_of result).

(** The receive loop of one connection.  [incoming] holds the text
    messages the peer sends before it disconnects; [receive_text] then
    raises. *)
Fixpoint websocket_loop (incoming : list string) : M (Process W) unit :=
  match incoming with
  | [] => raise WebSocketDisconnect
  | data :: later =>
      result <- inside (llm_service.process_command data None);;
      to_execute <- is_tool_call result;;
      result <-
        (if to_execute : bool then
           tool_name <- eval (getitem (PDict result) "tool");;
           execution_result <-
             execute_tool_call tool_name
               (from_option id (PDict ∅) (result !! "arguments"));;
           ret (<["execution_result" := PDict execution_result]> result)
         else ret result);;
      inside (call (websocket_send_json result));;;
      websocket_loop later
  end.

(** WebSocket for real-time communication. *)
Definition websocket_endpoint (incoming : list string) : M (Process W) unit :=
  inside (call websocket_accept);;;
  try_except (websocket_loop incoming) (fun _ => ret tt).

End main.
End main.

(** ** Reading the call log *)

Definition llm_request_of (ev : Event) : option groq.ChatRequest :=
  match projT2 ev with
  | chat_completions_create req => Some req
  | _ => None
  end.

Definition payload_of (ev : Event) : option dict :=
  match projT2 ev with
  | websocket_send_json payload => Some payload
  | _ => None
  end.

(** The model requests made, and the payloads sent on the channel, oldest
    first. *)
Definition llm_requests (l : list Event) : list groq.ChatRequest :=
  omap llm_request_of l.

Definition sent (l : list Event) : list dict := omap payload_of l.

(** The calls that belong to the Spotify integration (its client, its
    token cache), as opposed to the model and the channel. *)
Definition integration_event (ev : Event) : bool :=
  match projT2 ev with
  | chat_completions_create _ | websocket_accept | websocket_send_json _ => false
  | _ => true
  end.

Definition log_of {W} (p : Process W) : list Event := calls (process_ext p).

(** ** The pipeline of one message, as the specification describes it *)

Module gateway.
Section gateway.
Context `{Host W}.

(** Resolve without context, dispatch an honoured tool call, merge. *)
Definition respond (data : string) : M (Process W) dict :=
  result <- main.inside (llm_service.process_command data None);;
  to_execute <- main.is_tool_call result;;
  if to_execute : bool then
    tool_name <- eval (getitem (PDict result) "tool");;
    execution_result <-
      main.execute_tool_call tool_name
        (from_option id (PDict ∅) (result !! "arguments"));;
    ret (<["execution_result" := PDict execution_result]> result)
  else ret result.

(** One exchange on the channel: respond, then send. *)
Definition exchange (data : string) : M (Process W) dict :=
  result <- respond data;;
  main.inside (call (websocket_send_json result));;;
  ret result.

(** The payloads a connection was sent, given what the peer sends. *)
Definition responses (incoming : list string) (p : Process W) : list dict :=
  sent (log_of (main.websocket_endpoint incoming p).2).

End gateway.
End gateway.

(** ** A small concrete host

    The world is the player: whether it is playing and whether a device is
    open.  The model answers by the user's last words; [json.loads] knows
    the argument strings that model emits. *)

Module toy.

Record player := { playing : bool; device_open : bool }.

(** The double-quote character. *)
Definition dq : string := String (Ascii.ascii_of_nat 34) "".

Definition json_action (action : string) : string :=
  "{" +:+ dq +:+ "action" +:+ dq +:+ ": " +:+ dq +:+ action +:+ dq +:+ "}".

Definition json_search : string :=
  "{" +:+ dq +:+ "action" +:+ dq +:+ ": " +:+ dq +:+ "search" +:+ dq +:+ ", "
      +:+ dq +:+ "query" +:+ dq +:+ ": " +:+ dq +:+ "Imagine" +:+ dq +:+ ", "
      +:+ dq +:+ "type" +:+ dq +:+ ": " +:+ dq +:+ "track" +:+ dq +:+ "}".

Definition loads (s : string) : exn + pyval :=
  if String.eqb s (json_action "play") then
    inr (PDict (mkdict [("action", PStr "play")]))
  else if String.eqb s (json_action "pause") then
    inr (PDict (mkdict [("action", PStr "pause")]))
  else if String.eqb s (json_action "current") then
    inr (PDict (mkdict [("action", PStr "current")]))
  else if String.eqb s json_search then
    inr (PDict (mkdict [("action", PStr "search"); ("query", PStr "Imagine");
                        ("type", PStr "track")]))
  else if String.eqb s "{}" then inr (PDict ∅)
  else if String.eqb s "[]" then inr (PList [])
  else inl (LibraryError "Expecting value: line 1 column 1 (char 0)").

Definition tool_reply (tool args : string) : groq.ChatCompletion :=
  {| groq.choices :=
       [ {| groq.message :=
              {| groq.content := None;
                 groq.tool_calls :=
                   Some [ {| groq.function :=
                               {| groq.name := tool; groq.arguments := args |} |} ] |} |} ] |}.

Definition text_reply (s : string) : groq.ChatCompletion :=
  {| groq.choices :=
       [ {| groq.message :=
              {| groq.content := Some s; groq.tool_calls := None |} |} ] |}.

Definition last_content (req : groq.ChatRequest) : pyval :=
  match last (groq.messages req) with
  | Some m => from_option id PNone (m !! "content")
  | None => PNone
  end.

Definition text_of (v : pyval) : string :=
  match v with
  | PStr s => s
  | _ => ""
  end.

Definition model (req : groq.ChatRequest) : exn + groq.ChatCompletion :=
  let said := last_content req in
  if eq_str said "offline" then inl (LibraryError "Connection error.")
  else if in_strs said ["play"; "pause"; "current"] then
    inr (tool_reply "control_spotify" (json_action (text_of said)))
  else if eq_str said "find Imagine" then
    inr (tool_reply "control_spotify" json_search)
  else if eq_str said "garbled" then inr (tool_reply "general_query" "oops")
  else if eq_str said "a list" then inr (tool_reply "manage_calendar" "[]")
  else if eq_str said "nameless" then inr (tool_reply "" "{}")
  else inr (text_reply "Hello.").

Definition device_listing (w : player) : pyval :=
  if device_open w then
    PDict (mkdict
      [("devices", PList
         [PDict (mkdict [("id", PStr "dev1"); ("is_active", PBool true);
                         ("name", PStr "Laptop")])])])
  else PDict (mkdict [("devices", PList [])]).

Definition now_playing (w : player) : pyval :=
  PDict (mkdict
    [("is_playing", PBool (playing w));
     ("progress_ms", PInt 1000);
     ("item", PDict (mkdict
        [("name", PStr "Imagine");
         ("duration_ms", PInt 183000);
         ("artists", PList [PDict (mkdict [("name", PStr "John Lennon")])]);
         ("album", PDict (mkdict [("name", PStr "Imagine")]))]))]).

Definition set_playing (b : bool) (w : player) : player :=
  {| playing := b; device_open := device_open w |}.

Definition answer (R : Type) (c : Call R) (w : player) : (exn + R) * player :=
  match c in Call R return (exn + R) * player with
  | chat_completions_create req => (model req, w)
  | os_path_exists _ => (inr true, w)
  | get_cached_token _ =>
      (inr (PDict (mkdict [("access_token", PStr "t");
                           ("refresh_token", PStr "r")])), w)
  | is_token_expired _ _ => (inr false, w)
  | refresh_access_token _ _ => (inr PNone, w)
  | current_user => (inr (PDict (mkdict [("display_name", PStr "toy")])), w)
  | devices => (inr (device_listing w), w)
  | search _ _ _ =>
      (inr (PDict (mkdict [("tracks", PDict (mkdict [("items", PList [])]))])), w)
  | artist_top_tracks _ => (inr (PDict (mkdict [("tracks", PList [])])), w)
  | start_playback _ _ _ => (inr PNone, set_playing true w)
  | pause_playback _ => (inr PNone, set_playing false w)
  | next_track _ => (inr PNone, w)
  | previous_track _ => (inr PNone, w)
  | current_playback => (inr (now_playing w), w)
  | websocket_accept => (inr tt, w)
  | websocket_send_json _ => (inr tt, w)
  end.

#[export] Instance host : Host player := {|
  oracle := answer;
  json_loads := loads;
  environ := {| GROQ_API_KEY := Some "gsk";
                SPOTIFY_CLIENT_ID := Some "id";
                SPOTIFY_CLIENT_SECRET := Some "secret";
                SPOTIFY_REDIRECT_URI := Some "http://127.0.0.1:8888/callback" |};
  str_value := fun _ => "<value>";
  str_builtin := fun _ => "<error>"
|}.

Definition outside_world (is_playing open : bool) : Ext player :=
  {| world := {| playing := is_playing; device_open := open |}; calls := [] |}.

Definition client : Spotify :=
  {| auth_manager :=
       {| client_id := Some "id"; client_secret := Some "secret";
          redirect_uri := Some "http://127.0.0.1:8888/callback";
          oauth_scope := "user-read-playback-state";
          cache_path := ".spotify_cache"; open_browser := false |} |}.

(** A service whose initialization failed, one that is initialized with a
    cached device, and one that is initialized without a device. *)
Definition failed_service : SpotifyService :=
  {| scope := "user-read-playback-state"; sp := None; device_id := PNone |}.

Definition ready_service : SpotifyService :=
  {| scope := "user-read-playback-state"; sp := Some client;
     device_id := PStr "dev1" |}.

Definition deviceless_service : SpotifyService :=
  {| scope := "user-read-playback-state"; sp := Some client;
     device_id := PNone |}.

(** Process states: nothing constructed yet; the ready service with the
    player playing; the initialized service with no device anywhere. *)
Definition fresh : Process player :=
  {| _spotify_service := None; process_ext := outside_world false true |}.

Definition ready : Process player :=
  {| _spotify_service := Some ready_service;
     process_ext := outside_world true true |}.

Definition deviceless : Process player :=
  {| _spotify_service := Some deviceless_service;
     process_ext := outside_world false false |}.

End toy.

(** ** Vocabulary of the properties *)

(** The three shapes of a result of the resolver. *)
Inductive resolved : dict -> Prop :=
| resolved_error (description : string) :
    resolved (mkdict [("type", PStr "error"); ("error", PStr description)])
| resolved_direct (text : option string) :
    resolved (mkdict [("type", PStr "direct_response"); ("content", opt_str text)])
| resolved_tool (tool : string) (args : pyval) (raw : option string) :
    resolved (mkdict [("type", PStr "tool_call"); ("tool", PStr tool);
                      ("arguments", args); ("raw_response", opt_str raw)]).

(** [steps R m]: every run of [m] takes a state to an [R]-related one,
    whether it returns or raises. *)
Definition steps {S A} (R : relation S) (m : M S A) : Prop :=
  forall s, R s (m s).2.

(** The log [l'] is [l] followed by calls of the Spotify integration only. *)
Definition grows (l l' : list Event) : Prop :=
  exists k, l' = (l ++ k)%list /\ Forall (fun ev => integration_event ev = true) k.

Definition ext_quiet {W} (e e' : Ext W) : Prop := grows (calls e) (calls e').
Definition method_quiet {W} (s s' : Method W) : Prop := ext_quiet (ext s) (ext s').
Definition process_quiet {W} (p p' : Process W) : Prop :=
  ext_quiet (process_ext p) (process_ext p').

(** The client handle is the same. *)
Definition same_client {W} (s s' : Method W) : Prop := sp (self s') = sp (self s).

(** The state in which [search_and_play] searches: the one it was called
    in when a device is cached, else the one the device lookup leaves. *)
Definition with_device `{Host W} (s : Method W) : Method W :=
  if truthy (device_id (self s)) then s
  else (spotify_service._get_device s).2.

(** [results[kind]['items']]. *)
Definition items_of (results : pyval) (kind : string) : exn + pyval :=
  match getitem results kind with
  | inr group => getitem group "items"
  | inl e => inl e
  end.

(** ** More vocabulary *)

(** [yields Q m]: whatever [m] returns satisfies [Q]. *)
Definition yields {S A} (Q : A -> Prop) (m : M S A) : Prop :=
  forall s a s', m s = (Returned a, s') -> Q a.

(** The result envelope: a [status] key holding one of the allowed words. *)
Definition has_status (allowed : list string) (d : dict) : Prop :=
  exists s, d !! "status" = Some (PStr s) /\ s ∈ allowed.

(** What [control_playback] does for a verb it knows: the client call it
    makes for the device, and the message of its success. *)
Definition verb_call (action : string) (device : pyval)
    : option (Call pyval * string) :=
  if String.eqb action "play" then
    Some (start_playback device None None, "Playback resumed")
  else if String.eqb action "pause" then
    Some (pause_playback device, "Playback paused")
  else if String.eqb action "skip" || String.eqb action "next" then
    Some (next_track device, "Skipped to next track")
  else if String.eqb action "previous" then
    Some (previous_track device, "Playing previous track")
  else None.

(** The result [control_playback] makes of the client's answer. *)
Definition playback_result `{Host W} (message : string) (answer : exn + pyval)
    : dict :=
  match answer with
  | inr _ => mkdict [("status", PStr "success"); ("message", PStr message)]
  | inl (SpotifyException http_status description) =>
      if (http_status =? 404)%Z then
        mkdict [("status", PStr "error");
                ("message", PStr "No active device found. Please open Spotify.")]
      else if (http_status =? 403)%Z then
        mkdict [("status", PStr "error");
                ("message", PStr "Premium account required for playback control.")]
      else
        mkdict [("status", PStr "error");
                ("message", PStr ("Spotify error: " +:+ description))]
  | inl e => mkdict [("status", PStr "error"); ("message", PStr (str_exn e))]
  end.

(** A device entry of a device listing, read as the code reads it. *)
Definition device_field (d : pyval) (k : string) : pyval :=
  match getitem d k with
  | inr v => v
  | inl _ => PNone
  end.

Definition is_device (d : pyval) : Prop :=
  exists fields,
    d = PDict fields
    /\ is_Some (fields !! "id") /\ is_Some (fields !! "is_active")
    /\ is_Some (fields !! "name").

(** The device the lookup settles on: the first active one, else the first,
    else none. *)
Definition chosen_device (l : list pyval) : pyval :=
  match List.find (fun d => truthy (device_field d "is_active")) l with
  | Some d => device_field d "id"
  | None =>
      match l with
      | d :: _ => device_field d "id"
      | [] => PNone
      end
  end.

(** ** A host that answers from a script

    The world is a table of answers, one per kind of call; it never
    changes. *)
Module scripted.

Record script := {
  model_says : exn + groq.ChatCompletion;
  file_exists : exn + bool;
  cached_token : exn + pyval;
  token_expired : exn + bool;
  refreshed : exn + pyval;
  profile : exn + pyval;
  device_list : exn + pyval;
  search_results : exn + pyval;
  top_tracks : exn + pyval;
  playback : exn + pyval;
  now_playing : exn + pyval;
  accepted : exn + unit;
  delivered : exn + unit
}.

Definition answer (R : Type) (c : Call R) (w : script) : (exn + R) * script :=
  match c in Call R return (exn + R) * script with
  | chat_completions_create _ => (model_says w, w)
  | os_path_exists _ => (file_exists w, w)
  | get_cached_token _ => (cached_token w, w)
  | is_token_expired _ _ => (token_expired w, w)
  | refresh_access_token _ _ => (refreshed w, w)
  | current_user => (profile w, w)
  | devices => (device_list w, w)
  | search _ _ _ => (search_results w, w)
  | artist_top_tracks _ => (top_tracks w, w)
  | start_playback _ _ _ => (playback w, w)
  | pause_playback _ => (playback w, w)
  | next_track _ => (playback w, w)
  | previous_track _ => (playback w, w)
  | current_playback => (now_playing w, w)
  | websocket_accept => (accepted w, w)
  | websocket_send_json _ => (delivered w, w)
  end.

Definition host_with (env : Environ) : Host script := {|
  oracle := answer;
  json_loads := toy.loads;
  environ := env;
  str_value := fun _ => "<value>";
  str_builtin := fun _ => "<error>"
|}.

Definition credentials : Environ :=
  {| GROQ_API_KEY := Some "gsk";
     SPOTIFY_CLIENT_ID := Some "id";
     SPOTIFY_CLIENT_SECRET := Some "secret";
     SPOTIFY_REDIRECT_URI := Some "http://127.0.0.1:8888/callback" |}.

Definition host : Host script := host_with credentials.

Definition laptop (active : bool) : pyval :=
  PDict (mkdict [("id", PStr "laptop"); ("is_active", PBool active);
                 ("name", PStr "Laptop")]).

Definition phone (active : bool) : pyval :=
  PDict (mkdict [("id", PStr "phone"); ("is_active", PBool active);
                 ("name", PStr "Phone")]).

Definition listing (l : list pyval) : pyval :=
  PDict (mkdict [("devices", PList l)]).


Definition tracks_found (l : list pyval) : pyval :=
  PDict (mkdict [("tracks", PDict (mkdict [("items", PList l)]))]).

(** Everything works: the model answers in words, one laptop is active,
    searches find nothing, nothing is playing. *)
Definition calm : script :=
  {| model_says := inr (toy.text_reply "Hello.");
     file_exists := inr true;
     cached_token := inr (PDict (mkdict [("access_token", PStr "t");
                                         ("refresh_token", PStr "r")]));
     token_expired := inr false;
     refreshed := inr PNone;
     profile := inr (PDict (mkdict [("display_name", PStr "someone")]));
     device_list := inr (listing [laptop true]);
     search_results := inr (tracks_found []);
     top_tracks := inr (PDict (mkdict [("tracks", PList [])]));
     playback := inr PNone;
     now_playing := inr PNone;
     accepted := inr tt;
     delivered := inr tt |}.

Definition with_model (r : exn + groq.ChatCompletion) (w : script) : script :=
  {| model_says := r; file_exists := file_exists w;
     cached_token := cached_token w; token_expired := token_expired w;
     refreshed := refreshed w; profile := profile w;
     device_list := device_list w; search_results := search_results w;
     top_tracks := top_tracks w; playback := playback w;
     now_playing := now_playing w; accepted := accepted w;
     delivered := delivered w |}.

Definition with_devices (r : exn + pyval) (w : script) : script :=
  {| model_says := model_says w; file_exists := file_exists w;
     cached_token := cached_token w; token_expired := token_expired w;
     refreshed := refreshed w; profile := profile w;
     device_list := r; search_results := search_results w;
     top_tracks := top_tracks w; playback := playback w;
     now_playing := now_playing w; accepted := accepted w;
     delivered := delivered w |}.

Definition with_search (r : exn + pyval) (w : script) : script :=
  {| model_says := model_says w; file_exists := file_exists w;
     cached_token := cached_token w; token_expired := token_expired w;
     refreshed := refreshed w; profile := profile w;
     device_list := device_list w; search_results := r;
     top_tracks := top_tracks w; playback := playback w;
     now_playing := now_playing w; accepted := accepted w;
     delivered := delivered w |}.

Definition with_playback (r : exn + pyval) (w : script) : script :=
  {| model_says := model_says w; file_exists := file_exists w;
     cached_token := cached_token w; token_expired := token_expired w;
     refreshed := refreshed w; profile := profile w;
     device_list := device_list w; search_results := search_results w;
     top_tracks := top_tracks w; playback := r;
     now_playing := now_playing w; accepted := accepted w;
     delivered := delivered w |}.

Definition with_profile (r : exn + pyval) (w : script) : script :=
  {| model_says := model_says w; file_exists := file_exists w;
     cached_token := cached_token w; token_expired := token_expired w;
     refreshed := refreshed w; profile := r;
     device_list := device_list w; search_results := search_results w;
     top_tracks := top_tracks w; playback := playback w;
     now_playing := now_playing w; accepted := accepted w;
     delivered := delivered w |}.

Definition with_delivery (r : exn + unit) (w : script) : script :=
  {| model_says := model_says w; file_exists := file_exists w;
     cached_token := cached_token w; token_expired := token_expired w;
     refreshed := refreshed w; profile := profile w;
     device_list := device_list w; search_results := search_results w;
     top_tracks := top_tracks w; playback := playback w;
     now_playing := now_playing w; accepted := accepted w;
     delivered := r |}.

(** The cached token has expired and holds no refresh token. *)
Definition stale : script :=
  {| model_says := model_says calm;
     file_exists := inr true;
     cached_token := inr (PDict (mkdict [("access_token", PStr "t")]));
     token_expired := inr true;
     refreshed := refreshed calm; profile := profile calm;
     device_list := device_list calm; search_results := search_results calm;
     top_tracks := top_tracks calm; playback := playback calm;
     now_playing := now_playing calm; accepted := accepted calm;
     delivered := delivered calm |}.

(** Two choices, the first with two tool invocations. *)
Definition two_calls : groq.ChatCompletion :=
  {| groq.choices :=
       [ {| groq.message :=
              {| groq.content := Some "Pausing.";
                 groq.tool_calls :=
                   Some [ {| groq.function :=
                               {| groq.name := "control_spotify";
                                  groq.arguments := toy.json_action "pause" |} |};
                          {| groq.function :=
                               {| groq.name := "control_spotify";
                                  groq.arguments := toy.json_action "play" |} |} ] |} |};
         {| groq.message :=
              {| groq.content := Some "Or not."; groq.tool_calls := None |} |} ] |}.

(** The environment with an empty client secret. *)
Definition no_secret : Environ :=
  {| GROQ_API_KEY := Some "gsk";
     SPOTIFY_CLIENT_ID := Some "id";
     SPOTIFY_CLIENT_SECRET := Some "";
     SPOTIFY_REDIRECT_URI := Some "http://127.0.0.1:8888/callback" |}.

Definition outside_of (w : script) : Ext script := {| world := w; calls := [] |}.

Definition service (device : pyval) : SpotifyService :=
  {| scope := "user-read-playback-state"; sp := Some toy.client;
     device_id := device |}.

Definition running (device : pyval) (w : script) : Process script :=
  {| _spotify_service := Some (service device); process_ext := outside_of w |}.

Definition broken (w : script) : Process script :=
  {| _spotify_service := Some toy.failed_service; process_ext := outside_of w |}.

Definition unborn (w : script) : Process script :=
  {| _spotify_service := None; process_ext := outside_of w |}.

End scripted.

(** The part of [search_and_play] that follows the device check, taken
    from its body. *)
Definition search_part `{Host W} (query search_type : pyval) : M (Method W) dict :=
  ltac:(let t := eval cbv delta [spotify_service.search_and_play] beta in
                   (spotify_service.search_and_play query search_type) in
        lazymatch t with
        | context [let x := ?part in _] => exact part
        end).


(** The request the channel makes for one message. *)
Definition asked `{Host W} (data : string) : groq.ChatRequest :=
  llm_service.request [llm_service.system_message; llm_service.user_message data].

(** [all([client_id, client_secret, redirect_uri])] over the environment. *)
Definition has_credentials `{Host W} : bool :=
  truthy_env (SPOTIFY_CLIENT_ID environ)
  && truthy_env (SPOTIFY_CLIENT_SECRET environ)
  && truthy_env (SPOTIFY_REDIRECT_URI environ).

(** The authorization manager [_initialize_spotify] builds for a service
    with scope [sc]. *)
Definition cache_manager `{Host W} (sc : string) : SpotifyOAuth :=
  {| client_id := SPOTIFY_CLIENT_ID environ;
     client_secret := SPOTIFY_CLIENT_SECRET environ;
     redirect_uri := SPOTIFY_REDIRECT_URI environ;
     oauth_scope := sc;
     cache_path := ".spotify_cache";
     open_browser := false |}.

(** The client handle is the one it was, or none, or [client]. *)
Definition client_among {W} (client : Spotify) (s s' : Method W) : Prop :=
  sp (self s') = sp (self s) \/ sp (self s') = None \/ sp (self s') = Some client.

(** * Properties *)

(** ** Running the monad *)

Section monad_facts.
Context {S A B : Type}.

Lemma bind_returned (m : M S A) (k : A -> M S B) s a s' :
  m s = (Returned a, s') -> bind m k s = k a s'.
Proof. intros E. unfold bind. now rewrite E. Qed.

Lemma bind_raised (m : M S A) (k : A -> M S B) s e s' :
  m s = (Raised e, s') -> bind m k s = (Raised e, s').
Proof. intros E. unfold bind. now rewrite E. Qed.

Lemma try_except_returned (m : M S A) (h : exn -> M S A) s a s' :
  m s = (Returned a, s') -> try_except m h s = (Returned a, s').
Proof. intros E. unfold try_except. now rewrite E. Qed.

Lemma try_except_raised (m : M S A) (h : exn -> M S A) s e s' :
  m s = (Raised e, s') -> try_except m h s = h e s'.
Proof. intros E. unfold try_except. now rewrite E. Qed.

(** A [try] whose handler cannot raise cannot raise. *)
Lemma try_except_total (m : M S A) (h : exn -> M S A) s :
  (forall e s0, exists a s1, h e s0 = (Returned a, s1)) ->
  exists a s', try_except m h s = (Returned a, s').
Proof.
  intros Hh. unfold try_except.
  destruct (m s) as [[a|e] s']; [eauto | apply Hh].
Qed.
End monad_facts.

Lemma bind_assoc {S A B C} (m : M S A) (f : A -> M S B) (g : B -> M S C) s :
  bind (bind m f) g s = bind m (fun a => bind (f a) g) s.
Proof. unfold bind. by destruct (m s) as [[a|e] s']. Qed.

Lemma bind_ext {S A B} (m : M S A) (f g : A -> M S B) s :
  (forall a s', f a s' = g a s') -> bind m f s = bind m g s.
Proof. intros Hfg. unfold bind. destruct (m s) as [[a|e] s']; [apply Hfg | done]. Qed.

Lemma eq_str_refl s : eq_str (PStr s) s = true.
Proof. apply String.eqb_refl. Qed.

Lemma eq_str_neq s t : s <> t -> eq_str (PStr s) t = false.
Proof. intros Hne. now apply String.eqb_neq. Qed.

Lemma eq_str_true v s : eq_str v s = true -> v = PStr s.
Proof.
  destruct v; simpl; try discriminate.
  intros E. apply String.eqb_eq in E. now subst.
Qed.

Lemma in_strs_false v l :
  (forall a, a ∈ l -> v <> PStr a) -> in_strs v l = false.
Proof.
  intros Hv. unfold in_strs. induction l as [|a l IH]; simpl; [done|].
  rewrite IH by (intros b Hb; apply Hv; now right).
  destruct (eq_str v a) eqn:E; [|done].
  apply eq_str_true in E. exfalso. apply (Hv a); [now left | done].
Qed.

(** ** The Spotify service *)

Section spotify_facts.
Context `{Host W}.
Import spotify_service.

Lemma _initialize_spotify_returns (s : Method W) :
  exists s', _initialize_spotify s = (Returned tt, s').
Proof.
  unfold _initialize_spotify.
  match goal with
  | |- exists s', try_except ?m ?h s = _ =>
      destruct (try_except_total m h s) as ([] & s' & E)
  end.
  - intros e s0. now eexists _, _.
  - exists s'. exact E.
Qed.

Lemma __init___returns (e : Ext W) :
  exists service e', __init__ e = (Returned service, e').
Proof.
  unfold __init__.
  match goal with
  | |- context [_initialize_spotify ?s] =>
      destruct (_initialize_spotify_returns s) as (s' & E)
  end.
  rewrite E. now eexists _, _.
Qed.

(** Getting the singleton never raises, and leaves it constructed. *)
Lemma get_spotify_service_returns (p : Process W) :
  exists service e,
    get_spotify_service p =
      (Returned service, {| _spotify_service := Some service; process_ext := e |}).
Proof.
  unfold get_spotify_service.
  destruct p as [[service|] e]; simpl.
  - now eexists _, _.
  - destruct (__init___returns e) as (service & e' & E).
    rewrite E. now eexists _, _.
Qed.

Lemma get_spotify_service_cached (p : Process W) service :
  _spotify_service p = Some service ->
  get_spotify_service p = (Returned service, p).
Proof.
  intros E. unfold get_spotify_service. rewrite E. now destruct p.
Qed.

End spotify_facts.

(** ** The dispatcher *)

Section dispatch.
Context `{Host W}.

(** C4.  Dispatching [manage_calendar] ignores its arguments: for every
    arguments mapping it returns the result with status [info] and the
    coming-soon message, and the process state, call log included, is
    the one it started in, so no integration was called. *)
Theorem manage_calendar_is_a_stub (args : dict) (p : Process W) :
  main.execute_tool_call (PStr "manage_calendar") (PDict args) p =
    (Returned (mkdict [("status", PStr "info");
                       ("message", PStr "Calendar integration coming soon!")]),
     p).
Proof.
  unfold main.execute_tool_call, bind.
  change (eq_str (PStr "manage_calendar") "control_spotify") with false.
  change (eq_str (PStr "manage_calendar") "manage_calendar") with true.
  reflexivity.
Qed.

(** C5.  Dispatching [general_query] with an arguments mapping whose
    [response] is the string [X] returns exactly the result with status
    [success] and message [X], and leaves the process state, call log
    included, as it was. *)
Theorem general_query_passes_through (X : string) (args : dict) (p : Process W) :
  args !! "response" = Some (PStr X) ->
  main.execute_tool_call (PStr "general_query") (PDict args) p =
    (Returned (mkdict [("status", PStr "success"); ("message", PStr X)]), p).
Proof.
  intros HX. unfold main.execute_tool_call, bind. simpl. now rewrite HX.
Qed.

(** C7.  A tool name outside the three known ones gets the error result
    whose message is ["Unknown tool: "] followed by that name, whatever
    the arguments; the process state is untouched. *)
Theorem unknown_tool_is_an_error (t : string) (args : dict) (p : Process W) :
  t ∉ ["control_spotify"; "manage_calendar"; "general_query"] ->
  main.execute_tool_call (PStr t) (PDict args) p =
    (Returned (mkdict [("status", PStr "error");
                       ("message", PStr ("Unknown tool: " +:+ t))]), p).
Proof.
  intros Ht. unfold main.execute_tool_call, bind.
  rewrite !eq_str_neq by (intros ->; apply Ht; set_solver).
  reflexivity.
Qed.

(** C1, as amended.  With tool [control_spotify] and an [action] that is
    none of the six known ones (or is missing), no action branch returns;
    control reaches the dispatcher's last line, which returns the error
    result with message ["Unknown tool: control_spotify"].  The only
    effect is that of getting the service singleton. *)
Theorem unrecognised_action_reaches_last_return (args : dict) (p : Process W) :
  (forall a, a ∈ ["play"; "pause"; "skip"; "previous"; "search"; "current"] ->
             from_option id PNone (args !! "action") <> PStr a) ->
  main.execute_tool_call (PStr "control_spotify") (PDict args) p =
    (Returned (mkdict [("status", PStr "error");
                       ("message", PStr "Unknown tool: control_spotify")]),
     (spotify_service.get_spotify_service p).2).
Proof.
  intros Hact.
  assert (Hf : forall a,
    a ∈ ["play"; "pause"; "skip"; "previous"; "search"; "current"] ->
    eq_str (from_option id PNone (args !! "action")) a = false).
  { intros a Ha. destruct (eq_str _ a) eqn:Ea; [|done].
    apply eq_str_true in Ea. exfalso. now apply (Hact a). }
  destruct (get_spotify_service_returns p) as (service & e & E).
  unfold main.execute_tool_call, main.get, in_strs, bind. simpl.
  rewrite E. rewrite !Hf by set_solver. reflexivity.
Qed.

(** C9.  When the client handle is [None], each of [search_and_play],
    [control_playback] and [get_current_track] returns the
    not-initialized error result at once: nothing is raised, and the
    object and the outside, call log included, are unchanged. *)
Theorem uninitialized_client_reports_error
    (service : SpotifyService) (e : Ext W) (query search_type action : pyval) :
  sp service = None ->
  let s := {| self := service; ext := e |} in
  let failure :=
    mkdict [("status", PStr "error");
            ("message", PStr "Spotify not initialized. Please run auth_spotify_fixed.py")] in
  spotify_service.search_and_play query search_type s = (Returned failure, s)
  /\ spotify_service.control_playback action s = (Returned failure, s)
  /\ spotify_service.get_current_track s = (Returned failure, s).
Proof.
  intros Hsp s failure.
  unfold spotify_service.search_and_play, spotify_service.control_playback,
    spotify_service.get_current_track, bind, gets.
  subst s. simpl. rewrite Hsp. auto.
Qed.
End dispatch.

(** ** What a run does to the state *)

Section steps_facts.
Context {S : Type} (R : relation S) `{!PreOrder R}.

Lemma steps_ret {A} (a : A) : steps R (ret a).
Proof. intros s. reflexivity. Qed.

Lemma steps_raise {A} (e : exn) : steps R (raise (A:=A) e).
Proof. intros s. reflexivity. Qed.

Lemma steps_gets {A} (f : S -> A) : steps R (gets f).
Proof. intros s. reflexivity. Qed.

Lemma steps_eval {A} (r : exn + A) : steps R (eval r).
Proof. destruct r; [apply steps_raise | apply steps_ret]. Qed.

Lemma steps_bind {A B} (m : M S A) (k : A -> M S B) :
  steps R m -> (forall a, steps R (k a)) -> steps R (bind m k).
Proof.
  intros Hm Hk s. unfold bind. specialize (Hm s).
  destruct (m s) as [[a|e] s']; simpl in *; [|done].
  etransitivity; [exact Hm | apply Hk].
Qed.

Lemma steps_try_except {A} (m : M S A) (h : exn -> M S A) :
  steps R m -> (forall e, steps R (h e)) -> steps R (try_except m h).
Proof.
  intros Hm Hh s. unfold try_except. specialize (Hm s).
  destruct (m s) as [[a|e] s']; simpl in *; [done|].
  etransitivity; [exact Hm | apply Hh].
Qed.
End steps_facts.

#[local] Instance grows_preorder : PreOrder grows.
Proof.
  split.
  - intros l. exists []. by rewrite app_nil_r.
  - intros l1 l2 l3 (k1 & -> & H1) (k2 & -> & H2).
    exists (k1 ++ k2)%list. split; [by rewrite app_assoc | by apply Forall_app].
Qed.

#[local] Instance ext_quiet_preorder {W} : PreOrder (ext_quiet (W:=W)).
Proof.
  split; [intros e; unfold ext_quiet; reflexivity|].
  intros e1 e2 e3; unfold ext_quiet; apply transitivity.
Qed.

#[local] Instance method_quiet_preorder {W} : PreOrder (method_quiet (W:=W)).
Proof.
  split; [intros s; unfold method_quiet; reflexivity|].
  intros s1 s2 s3; unfold method_quiet; apply transitivity.
Qed.

#[local] Instance process_quiet_preorder {W} : PreOrder (process_quiet (W:=W)).
Proof.
  split; [intros s; unfold process_quiet; reflexivity|].
  intros s1 s2 s3; unfold process_quiet; apply transitivity.
Qed.

#[local] Instance same_client_preorder {W} : PreOrder (same_client (W:=W)).
Proof.
  split; [done|]. intros s1 s2 s3; unfold same_client; congruence.
Qed.

(** Integration calls are neither model requests nor channel payloads. *)
Lemma grows_llm_requests l l' : grows l l' -> llm_requests l' = llm_requests l.
Proof.
  intros (k & -> & Hk). unfold llm_requests. rewrite omap_app.
  induction Hk as [|[R c] k Hc _ IH]; simpl; [by rewrite app_nil_r|].
  destruct c; simpl in *; done.
Qed.

Lemma grows_sent l l' : grows l l' -> sent l' = sent l.
Proof.
  intros (k & -> & Hk). unfold sent. rewrite omap_app.
  induction Hk as [|[R c] k Hc _ IH]; simpl; [by rewrite app_nil_r|].
  destruct c; simpl in *; done.
Qed.

Ltac steps_structure :=
  lazymatch goal with
  | |- PreOrder _ => typeclasses eauto
  | |- steps _ (ret _) => apply steps_ret
  | |- steps _ (raise _) => apply steps_raise
  | |- steps _ (gets _) => apply steps_gets
  | |- steps _ (eval _) => apply steps_eval
  | |- steps _ (bind _ _) => apply steps_bind; [| |intros ?]
  | |- steps _ (try_except _ _) => apply steps_try_except; [| |intros ?]
  | |- steps _ (if ?b then _ else _) => destruct b
  | |- steps _ (match ?x with _ => _ end) => destruct x
  end.

Section spotify_steps.
Context `{Host W}.
Import spotify_service.

Lemma call_quiet {R} (c : Call R) :
  integration_event (event c) = true -> steps (ext_quiet (W:=W)) (call c).
Proof.
  intros Hc s. unfold call. destruct (oracle R c (world s)) as [r w'].
  exists [event c]. split; [done|]. by constructor.
Qed.

Lemma outside_quiet {A} (m : M (Ext W) A) :
  steps (ext_quiet (W:=W)) m -> steps (method_quiet (W:=W)) (outside m).
Proof.
  intros Hm s. unfold outside. specialize (Hm (ext s)).
  by destruct (m (ext s)) as [r e].
Qed.

Lemma api_quiet {R} (attr : string) (c : Call R) :
  integration_event (event c) = true -> steps (method_quiet (W:=W)) (api attr c).
Proof.
  intros Hc. unfold api. repeat steps_structure.
  by apply outside_quiet, call_quiet.
Qed.

Lemma set_sp_quiet v : steps (method_quiet (W:=W)) (set_sp v).
Proof. intros s. unfold method_quiet. simpl. reflexivity. Qed.

Lemma set_device_id_quiet v : steps (method_quiet (W:=W)) (set_device_id v).
Proof. intros s. unfold method_quiet. simpl. reflexivity. Qed.

Lemma outside_same_client {A} (m : M (Ext W) A) : steps (same_client (W:=W)) (outside m).
Proof. intros s. unfold outside. by destruct (m (ext s)). Qed.

Lemma api_same_client {R} (attr : string) (c : Call R) :
  steps (same_client (W:=W)) (api attr c).
Proof.
  unfold api. repeat steps_structure. apply outside_same_client.
Qed.

Lemma set_device_id_same_client v : steps (same_client (W:=W)) (set_device_id v).
Proof. by intros s. Qed.

End spotify_steps.

(** Walks the structure of a method body, closing each primitive with its
    step lemma. *)
Ltac quiet :=
  repeat first
    [ progress unfold spotify_service.item, spotify_service.item0,
        spotify_service.elements, spotify_service.hit,
        spotify_service.first_item, spotify_service.first_artist_name
    | steps_structure
    | apply set_sp_quiet | apply set_device_id_quiet
    | apply api_quiet; reflexivity
    | apply outside_quiet, call_quiet; reflexivity
    | apply set_device_id_same_client | apply api_same_client
    | apply outside_same_client ].

Section spotify_methods.
Context `{Host W}.
Import spotify_service.

Lemma _get_device_quiet : steps (method_quiet (W:=W)) _get_device.
Proof. unfold _get_device. quiet. Qed.

Lemma _get_device_same_client : steps (same_client (W:=W)) _get_device.
Proof. unfold _get_device. quiet. Qed.

Lemma _get_device_returns (s : Method W) :
  exists s', _get_device s = (Returned tt, s').
Proof.
  unfold _get_device.
  match goal with
  | |- exists s', try_except ?m ?h s = _ =>
      destruct (try_except_total m h s) as ([] & s' & E)
  end.
  - intros e s0. now eexists _, _.
  - exists s'. exact E.
Qed.

Lemma _initialize_spotify_quiet : steps (method_quiet (W:=W)) _initialize_spotify.
Proof.
  unfold _initialize_spotify. cbv zeta. quiet. apply _get_device_quiet.
Qed.

Lemma search_and_play_quiet query search_type :
  steps (method_quiet (W:=W)) (search_and_play query search_type).
Proof.
  unfold search_and_play. cbv zeta. quiet; apply _get_device_quiet.
Qed.

Lemma control_playback_quiet action :
  steps (method_quiet (W:=W)) (control_playback action).
Proof. unfold control_playback. quiet. Qed.

Lemma get_current_track_quiet : steps (method_quiet (W:=W)) get_current_track.
Proof. unfold get_current_track. quiet. Qed.

Lemma get_spotify_service_quiet : steps (process_quiet (W:=W)) get_spotify_service.
Proof.
  intros p. unfold get_spotify_service.
  destruct (_spotify_service p); [reflexivity|].
  unfold __init__.
  match goal with
  | |- context [_initialize_spotify ?s] =>
      pose proof (_initialize_spotify_quiet s) as Hq;
      destruct (_initialize_spotify s) as [[[]|e] s']
  end; exact Hq.
Qed.

Lemma method_quiet_process {A} service (m : M (Method W) A) :
  steps (method_quiet (W:=W)) m -> steps (process_quiet (W:=W)) (method service m).
Proof.
  intros Hm p. unfold method.
  specialize (Hm {| self := service; ext := process_ext p |}).
  by destruct (m _) as [r s].
Qed.
End spotify_methods.

(** ** The intent resolver *)

Section resolver.
Context `{Host W}.

(** The request carries the system instruction, then the whole context in
    its order, then the user's text; no context and an empty one give the
    same two messages. *)
Lemma build_messages_context (user_input : string) (context : option (list dict)) :
  llm_service.build_messages user_input context =
    llm_service.system_message ::
      default [] context ++ [llm_service.user_message user_input].
Proof. destruct context as [[|first later]|]; reflexivity. Qed.

(** One run of the resolver: it returns, its result has one of the three
    shapes, and the log gains exactly the one model request. *)
Lemma process_command_log(user_input : string) (context : option (list dict))
    (s : Ext W) :
  let create :=
    chat_completions_create
      (llm_service.request (llm_service.build_messages user_input context)) in
  exists result,
    llm_service.process_command user_input context s =
      (Returned result,
       {| world := (oracle _ create (world s)).2;
          calls := calls s ++ [event create] |})
    /\ resolved result.
Proof.
  intros create. unfold llm_service.process_command, try_except, bind, call.
  fold create. destruct (oracle _ create (world s)) as [[e|response] w']; simpl.
  { eexists. split; [reflexivity | constructor]. }
  destruct (groq.choices response) as [|choice others]; simpl.
  { eexists. split; [reflexivity | constructor]. }
  destruct (groq.tool_calls (groq.message choice)) as [[|tool_call more]|]; simpl;
    try (eexists; split; [reflexivity | constructor]).
  destruct (json_loads (groq.arguments (groq.function tool_call)))
    as [e|args]; simpl;
    eexists; (split; [reflexivity | constructor]).
Qed.

(** C3.  A call of the resolver always returns, so nothing propagates to
    the caller, and it makes exactly one model request, so nothing is
    retried.  When that request raises, and when the first tool
    invocation's argument string is rejected by [json.loads], the result
    is the one of type [error] that carries the failure's description. *)
Theorem resolver_catches_failures (user_input : string)
    (context : option (list dict)) (s : Ext W) :
  let create :=
    chat_completions_create
      (llm_service.request (llm_service.build_messages user_input context)) in
  let answer := oracle _ create (world s) in
  exists result,
    llm_service.process_command user_input context s =
      (Returned result,
       {| world := answer.2; calls := calls s ++ [event create] |})
    /\ (forall e,
          answer.1 = inl e ->
          result = mkdict [("type", PStr "error"); ("error", PStr (str_exn e))])
    /\ (forall response choice others tool_call more e,
          answer.1 = inr response ->
          groq.choices response = choice :: others ->
          groq.tool_calls (groq.message choice) = Some (tool_call :: more) ->
          json_loads (groq.arguments (groq.function tool_call)) = inl e ->
          result = mkdict [("type", PStr "error"); ("error", PStr (str_exn e))]).
Proof.
  intros create answer.
  unfold llm_service.process_command, try_except, bind, call.
  fold create. fold answer. destruct answer as [[e|response] w']; simpl.
  { eexists. split; [reflexivity|]. split.
    - intros e' [= <-]. reflexivity.
    - intros. discriminate. }
  destruct (groq.choices response) as [|choice others] eqn:Hchoices; simpl.
  { eexists. split; [reflexivity|]. split; [intros; discriminate|].
    intros response' ? ? ? ? ? [= <-]. congruence. }
  assert (Hhonoured : forall response' choice' others' tool_call' more',
    inr (A:=exn) response = inr response' ->
    groq.choices response' = choice' :: others' ->
    groq.tool_calls (groq.message choice') = Some (tool_call' :: more') ->
    groq.tool_calls (groq.message choice) = Some (tool_call' :: more')).
  { intros ? ? ? ? ? [= <-] Hc Htc. rewrite Hchoices in Hc.
    now injection Hc as <- <-. }
  destruct (groq.tool_calls (groq.message choice))
    as [[|tool_call more]|] eqn:Hcalls; simpl.
  - eexists. split; [reflexivity|]. split; [intros; discriminate|].
    intros ? ? ? ? ? ? Hr Hc Htc. now specialize (Hhonoured _ _ _ _ _ Hr Hc Htc).
  - destruct (json_loads (groq.arguments (groq.function tool_call)))
      as [e|args] eqn:Hloads; simpl;
      (eexists; split; [reflexivity|]; split; [intros; discriminate|]);
      intros ? ? ? ? ? e' Hr Hc Htc Hl;
      specialize (Hhonoured _ _ _ _ _ Hr Hc Htc);
      injection Hhonoured as <- <-; rewrite Hloads in Hl.
    + now injection Hl as <-.
    + discriminate.
  - eexists. split; [reflexivity|]. split; [intros; discriminate|].
    intros ? ? ? ? ? ? Hr Hc Htc. now specialize (Hhonoured _ _ _ _ _ Hr Hc Htc).
Qed.
End resolver.

(** C3 on the small host: the model is unreachable; the argument string is
    not JSON. *)
Lemma resolver_catches_failures_witness :
  (llm_service.process_command (H:=toy.host) "offline" None (toy.outside_world false true)).1 =
    Returned (mkdict [("type", PStr "error"); ("error", PStr "Connection error.")])
  /\ (llm_service.process_command (H:=toy.host) "garbled" None (toy.outside_world false true)).1 =
    Returned (mkdict [("type", PStr "error");
                      ("error", PStr "Expecting value: line 1 column 1 (char 0)")]).
Proof.
  split.
  - destruct (resolver_catches_failures (H:=toy.host) "offline" None
                (toy.outside_world false true)) as (result & E & Hraise & _).
    rewrite E. simpl. f_equal.
    apply (Hraise (LibraryError "Connection error.")). reflexivity.
  - destruct (resolver_catches_failures (H:=toy.host) "garbled" None
                (toy.outside_world false true)) as (result & E & _ & Hjson).
    rewrite E. simpl. f_equal.
    eapply (Hjson _ _ _ _ _
              (LibraryError "Expecting value: line 1 column 1 (char 0)"));
      reflexivity.
Defined.

(** A context of one message on the small host: the request made holds
    three messages, the context's between the system instruction and the
    user's text. *)
Example resolver_request_with_context :
  let earlier := mkdict [("role", PStr "assistant"); ("content", PStr "Paused.")] in
  llm_requests
    (calls (llm_service.process_command (H:=toy.host) "play" (Some [earlier])
              (toy.outside_world false true)).2) =
    [llm_service.request
       [llm_service.system_message; earlier; llm_service.user_message "play"]].
Proof.
  intros earlier.
  destruct (process_command_log (H:=toy.host) "play" (Some [earlier])
              (toy.outside_world false true)) as (result & -> & _).
  reflexivity.
Qed.

(** ** Searching *)

Section search.
Context `{Host W}.
Import spotify_service.

Lemma api_run {R} (attr : string) (c : Call R) (s : Method W) client r w' :
  sp (self s) = Some client ->
  oracle R c (world (ext s)) = (inr r, w') ->
  api attr c s =
    (Returned r,
     {| self := self s;
        ext := {| world := w'; calls := calls (ext s) ++ [event c] |} |}).
Proof.
  intros Hsp Hc. unfold api, bind, gets, outside, call.
  rewrite Hsp, Hc. reflexivity.
Qed.

Lemma hit_other (spotify_type want kind : string) results (s : Method W) :
  spotify_type <> want ->
  hit spotify_type want kind results s = (Returned false, s).
Proof.
  intros Hne. unfold hit.
  now rewrite (proj2 (String.eqb_neq spotify_type want) Hne).
Qed.

Lemma hit_empty (t kind : string) results (s : Method W) :
  items_of results kind = inr (PList []) ->
  hit t t kind results s = (Returned false, s).
Proof.
  intros Hitems. unfold hit, items_of, item, bind, eval in *.
  rewrite String.eqb_refl.
  destruct (getitem results kind) as [e|group]; [discriminate|]. simpl.
  now rewrite Hitems.
Qed.

Lemma with_device_client (s : Method W) :
  sp (self (with_device s)) = sp (self s).
Proof.
  unfold with_device. destruct (truthy (device_id (self s))); [done|].
  apply _get_device_same_client.
Qed.

(** A search that is made for tracks and finds none. *)
Lemma search_and_play_no_track (query search_type : string) (s : Method W)
    client results w' :
  type_mapping_get (PStr search_type) = inr "track" ->
  sp (self s) = Some client ->
  truthy (device_id (self (with_device s))) = true ->
  oracle _ (search (PStr query) "track" 10) (world (ext (with_device s))) =
    (inr results, w') ->
  items_of results "tracks" = inr (PList []) ->
  search_and_play (PStr query) (PStr search_type) s =
    (Returned (mkdict
       [("status", PStr "error");
        ("message", PStr ("No " +:+ search_type +:+ " found for '" +:+ query +:+ "'"))]),
     {| self := self (with_device s);
        ext := {| world := w';
                  calls := calls (ext (with_device s)) ++
                           [event (search (PStr query) "track" 10)] |} |}).
Proof.
  intros Hmap Hsp Hdev Hsearch Hitems.
  pose proof (with_device_client s) as Hsp1. rewrite Hsp in Hsp1.
  unfold search_and_play. cbv zeta.
  rewrite (bind_returned _ _ s (Some client) s) by (unfold gets; now rewrite Hsp).
  lazymatch goal with
  | |- try_except (bind _ (fun cached => if _ then _ else ?part)) _ _ = _ =>
      set (search_part := part)
  end.
  assert (Hpart : search_part (with_device s) =
    (Returned (mkdict
       [("status", PStr "error");
        ("message", PStr ("No " +:+ search_type +:+ " found for '" +:+ query +:+ "'"))]),
     {| self := self (with_device s);
        ext := {| world := w';
                  calls := calls (ext (with_device s)) ++
                           [event (search (PStr query) "track" 10)] |} |})).
  { subst search_part.
    rewrite (bind_returned _ _ _ "track" (with_device s))
      by (now rewrite Hmap).
    rewrite (bind_returned _ _ _ _ _ (api_run _ _ _ _ _ _ Hsp1 Hsearch)).
    erewrite (bind_returned _ _ _ None); [reflexivity|].
    rewrite (bind_returned _ _ _ _ _ (hit_empty _ _ _ _ Hitems)). cbv iota.
    rewrite (bind_returned _ _ _ _ _
               (hit_other "track" "artist" _ _ _ ltac:(done))).
    cbv iota.
    rewrite (bind_returned _ _ _ _ _
               (hit_other "track" "playlist" _ _ _ ltac:(done))).
    cbv iota.
    rewrite (bind_returned _ _ _ _ _
               (hit_other "track" "album" _ _ _ ltac:(done))).
    reflexivity. }
  clearbody search_part. unfold with_device in *.
  unfold try_except, bind, gets. simpl.
  destruct (truthy (device_id (self s))) eqn:Hcached; simpl.
  - now rewrite Hpart.
  - destruct (_get_device_returns s) as (s1 & Eg). rewrite Eg in *. simpl in *.
    rewrite Hdev. simpl. now rewrite Hpart.
Qed.

(** A search that is made for tracks is the first call after the device
    lookup, whatever it then returns. *)
Lemma search_and_play_searches_tracks (query search_type : string) (s : Method W)
    client :
  type_mapping_get (PStr search_type) = inr "track" ->
  sp (self s) = Some client ->
  truthy (device_id (self (with_device s))) = true ->
  exists k,
    calls (ext (search_and_play (PStr query) (PStr search_type) s).2) =
      calls (ext (with_device s)) ++ event (search (PStr query) "track" 10) :: k.
Proof.
  intros Hmap Hsp Hdev.
  pose proof (with_device_client s) as Hsp1. rewrite Hsp in Hsp1.
  unfold search_and_play. cbv zeta.
  rewrite (bind_returned _ _ s (Some client) s) by (unfold gets; now rewrite Hsp).
  lazymatch goal with
  | |- context [try_except (bind _ (fun cached => if _ then _ else ?part))] =>
      set (search_part := part)
  end.
  assert (Hpart : exists k,
    calls (ext (search_part (with_device s)).2) =
      calls (ext (with_device s)) ++ event (search (PStr query) "track" 10) :: k).
  { subst search_part.
    rewrite (bind_returned _ _ _ "track" (with_device s)) by (now rewrite Hmap).
    lazymatch goal with
    | |- context [bind (api _ _) ?r _] => set (rest := r)
    end.
    assert (Hrest : forall x, steps (method_quiet (W:=W)) (rest x))
      by (intros x; subst rest; cbv beta; quiet).
    clearbody rest.
    unfold bind at 1. unfold api at 1, bind at 1, gets, outside, call.
    rewrite Hsp1.
    destruct (oracle _ (search (PStr query) "track" 10)
                (world (ext (with_device s)))) as [[e|results] w']; simpl.
    - exists []. reflexivity.
    - match goal with
      | |- context [(rest results ?s2).2] =>
          destruct (Hrest results s2) as (k & Hk & _)
      end.
      exists k. rewrite Hk. simpl. by rewrite <- app_assoc. }
  clearbody search_part. unfold with_device in *.
  unfold try_except, bind, gets. simpl.
  destruct (truthy (device_id (self s))) eqn:Hcached; simpl.
  - destruct (search_part s) as [[a|e] s']; exact Hpart.
  - destruct (_get_device_returns s) as (s1 & Eg). rewrite Eg in *. simpl in *.
    rewrite Hdev. simpl.
    destruct (search_part s1) as [[a|e] s']; exact Hpart.
Qed.

End search.

Section search_dispatch.
Context `{Host W}.
Import spotify_service.

(** C6, as amended.  Dispatching the search for the track "Imagine"
    against an initialized integration that has a playback device
    (cached, or found by the device lookup) and whose search returns no
    track item yields exactly the error result with message
    ["No track found for 'Imagine'"]; the one call made after the device
    lookup is that search. *)
Theorem search_without_match_reports_no_track (p : Process W)
    service client results w' :
  _spotify_service p = Some service ->
  sp service = Some client ->
  let s := with_device {| self := service; ext := process_ext p |} in
  truthy (device_id (self s)) = true ->
  oracle _ (search (PStr "Imagine") "track" 10) (world (ext s)) = (inr results, w') ->
  items_of results "tracks" = inr (PList []) ->
  main.execute_tool_call (PStr "control_spotify")
    (PDict (mkdict [("action", PStr "search"); ("query", PStr "Imagine");
                    ("type", PStr "track")])) p =
    (Returned (mkdict [("status", PStr "error");
                       ("message", PStr "No track found for 'Imagine'")]),
     {| _spotify_service := Some (self s);
        process_ext :=
          {| world := w';
             calls := calls (ext s) ++ [event (search (PStr "Imagine") "track" 10)] |} |}).
Proof.
  intros Hservice Hsp s Hdev Hsearch Hitems.
  unfold main.execute_tool_call.
  erewrite (bind_returned _ _ p (Some _)); [reflexivity|].
  change (eq_str (PStr "control_spotify") "control_spotify") with true. cbv iota.
  rewrite (bind_returned _ _ _ _ _ (get_spotify_service_cached p service Hservice)).
  rewrite (bind_returned _ _ p (PStr "search") p) by reflexivity.
  change (in_strs (PStr "search") ["play"; "pause"; "skip"; "previous"]) with false.
  change (eq_str (PStr "search") "search") with true. cbv iota.
  rewrite (bind_returned _ _ p (PStr "Imagine") p) by reflexivity.
  rewrite (bind_returned _ _ p (PStr "track") p) by reflexivity.
  erewrite bind_returned; [reflexivity|].
  unfold method.
  rewrite (search_and_play_no_track "Imagine" "track"
             {| self := service; ext := process_ext p |} client results w'
             eq_refl Hsp Hdev Hsearch Hitems).
  reflexivity.
Qed.
End search_dispatch.

(** ** The single-shot endpoint *)

Section endpoint.
Context `{Host W}.

Lemma is_tool_call_error d (p : Process W) :
  main.is_tool_call (mkdict [("type", PStr "error"); ("error", PStr d)]) p =
    (Returned false, p).
Proof. reflexivity. Qed.

Lemma is_tool_call_direct c (p : Process W) :
  main.is_tool_call (mkdict [("type", PStr "direct_response"); ("content", opt_str c)]) p =
    (Returned false, p).
Proof. reflexivity. Qed.

Lemma is_tool_call_tool n a raw (p : Process W) :
  main.is_tool_call
    (mkdict [("type", PStr "tool_call"); ("tool", PStr n);
             ("arguments", a); ("raw_response", opt_str raw)]) p =
    (Returned (negb (String.eqb n "")), p).
Proof. reflexivity. Qed.

Lemma inside_resolver (user_input : string) (context : option (list dict))
    (p : Process W) :
  exists result p1,
    main.inside (llm_service.process_command user_input context) p =
      (Returned result, p1)
    /\ resolved result.
Proof.
  destruct (process_command_log user_input context (process_ext p))
    as (result & E & Hshape).
  unfold main.inside. rewrite E. now eexists _, _.
Qed.

(** C2, as amended.  Every response the single-shot endpoint returns has
    type [tool_call], [direct_response] or [error], and carries an
    execution result exactly when its type is [tool_call] and its tool
    is a non-empty string. *)
Theorem response_invariant (request : main.CommandRequest) (p : Process W)
    response p' :
  main.process_command request p = (Returned response, p') ->
  main.type response ∈ ["tool_call"; "direct_response"; "error"]
  /\ (is_Some (main.execution_result response) <->
      main.type response = "tool_call"
      /\ exists t, main.tool response = Some t /\ t <> "").
Proof.
  intros Hrun. unfold main.process_command in Hrun.
  destruct (inside_resolver (main.text request) (main.context request) p)
    as (result & p1 & E & Hshape).
  rewrite (bind_returned _ _ _ _ _ E) in Hrun. clear E.
  destruct Hshape as [d | c | n a raw].
  - rewrite (bind_returned _ _ _ _ _ (is_tool_call_error d p1)) in Hrun.
    cbv iota in Hrun.
    vm_compute in Hrun. injection Hrun as <- <-. simpl.
    split; [set_solver|]. split; [intros [? [=]] | intros [[=] _]].
  - rewrite (bind_returned _ _ _ _ _ (is_tool_call_direct c p1)) in Hrun.
    cbv iota in Hrun.
    destruct c; vm_compute in Hrun; injection Hrun as <- <-; simpl;
      (split; [set_solver|]; split; [intros [? [=]] | intros [[=] _]]).
  - rewrite (bind_returned _ _ _ _ _ (is_tool_call_tool n a raw p1)) in Hrun.
    destruct (String.eqb_spec n "") as [->|Hn]; simpl negb in Hrun; cbv iota in Hrun.
    + destruct a, raw; vm_compute in Hrun; try discriminate;
        injection Hrun as <- <-; simpl;
        (split; [set_solver|]; split;
         [intros [? [=]] | intros (_ & t & [= <-] & Ht); done]).
    + unfold bind at 1 in Hrun.
      rewrite (bind_returned _ _ p1 (PStr n) p1) in Hrun by reflexivity.
      change (default (PDict ∅) (_ !! "arguments")) with a in Hrun.
      destruct (main.execute_tool_call (PStr n) a p1) as [[exec|e] p2] eqn:Eexec.
      * rewrite (bind_returned _ _ _ _ _ Eexec) in Hrun.
        destruct a, raw; vm_compute in Hrun; try discriminate;
          injection Hrun as <- <-; simpl;
          (split; [set_solver|]; split; [intros _; split; [done|]; by exists n | by eauto]).
      * rewrite (bind_raised _ _ _ _ _ Eexec) in Hrun. discriminate.
Qed.
End endpoint.

(** ** The persistent channel *)

Section channel.
Context `{Host W}.

Lemma websocket_loop_cons (data : string) (later : list string) (p : Process W) :
  main.websocket_loop (data :: later) p =
    bind (gateway.exchange data) (fun _ => main.websocket_loop later) p.
Proof.
  unfold gateway.exchange, gateway.respond. simpl main.websocket_loop.
  rewrite (bind_assoc (bind (main.inside _) _)).
  rewrite (bind_assoc (main.inside _)). apply bind_ext. intros result p1. cbv beta.
  rewrite (bind_assoc (main.is_tool_call result)). apply bind_ext.
  intros to_execute p2. cbv beta.
  apply bind_ext. intros result' p3. cbv beta.
  rewrite (bind_assoc (main.inside _)). apply bind_ext. intros [] p4. reflexivity.
Qed.

Lemma execute_tool_call_quiet tool_name arguments :
  steps (process_quiet (W:=W)) (main.execute_tool_call tool_name arguments).
Proof.
  unfold main.execute_tool_call, main.get.
  repeat first
    [ steps_structure
    | apply get_spotify_service_quiet
    | apply method_quiet_process;
      first [ apply control_playback_quiet | apply search_and_play_quiet
            | apply get_current_track_quiet ] ].
Qed.

Lemma is_tool_call_quiet result :
  steps (process_quiet (W:=W)) (main.is_tool_call result).
Proof. unfold main.is_tool_call. repeat steps_structure. Qed.

(** One response: the log gains the model request for that message alone,
    then integration calls only. *)
Lemma respond_log (data : string) (p : Process W) :
  grows
    (log_of p ++
       [event (chat_completions_create
                 (llm_service.request
                    [llm_service.system_message; llm_service.user_message data]))])
    (log_of (gateway.respond data p).2).
Proof.
  unfold gateway.respond.
  destruct (process_command_log data None (process_ext p)) as (result & E & _).
  erewrite bind_returned; [|unfold main.inside; rewrite E; reflexivity].
  match goal with
  | |- grows _ (log_of (?m ?p1).2) =>
      assert (Hrest : steps (process_quiet (W:=W)) m); [|exact (Hrest p1)]
  end.
  repeat first [ steps_structure | apply is_tool_call_quiet
               | apply execute_tool_call_quiet ].
Qed.

Lemma exchange_log (data : string) (p : Process W) result p' :
  gateway.exchange data p = (Returned result, p') ->
  llm_requests (log_of p') =
    llm_requests (log_of p) ++
      [llm_service.request
         [llm_service.system_message; llm_service.user_message data]]
  /\ sent (log_of p') = sent (log_of p) ++ [result].
Proof.
  unfold gateway.exchange. intros Hrun.
  pose proof (respond_log data p) as Hlog.
  destruct (gateway.respond data p) as [[r|e] p1] eqn:Er;
    [rewrite (bind_returned _ _ _ _ _ Er) in Hrun
    |rewrite (bind_raised _ _ _ _ _ Er) in Hrun; discriminate].
  simpl in Hlog.
  unfold bind, main.inside, call, ret in Hrun.
  destruct (oracle _ (websocket_send_json r) (world (process_ext p1)))
    as [[e|[]] w']; simpl in Hrun; [discriminate|].
  injection Hrun as <- <-. unfold log_of in *. simpl.
  unfold llm_requests, sent in *.
  rewrite !omap_app. simpl.
  pose proof (grows_llm_requests _ _ Hlog) as Hl.
  pose proof (grows_sent _ _ Hlog) as Hs.
  unfold llm_requests, sent in Hl, Hs. rewrite Hl, Hs, !omap_app. simpl.
  by rewrite !app_nil_r.
Qed.

(** C8, as amended.  When the connection is accepted and the two
    exchanges return, the endpoint sends exactly the two responses, in
    send order, and the model is asked twice, each time with the system
    instruction and that one message only: no context is passed.  The
    second response is computed in the process state the first exchange
    leaves. *)
Theorem channel_serves_in_order (m1 m2 : string) (p p0 p1 p2 : Process W) r1 r2 :
  main.inside (call websocket_accept) p = (Returned tt, p0) ->
  gateway.exchange m1 p0 = (Returned r1, p1) ->
  gateway.exchange m2 p1 = (Returned r2, p2) ->
  main.websocket_endpoint [m1; m2] p = (Returned tt, p2)
  /\ sent (log_of p2) = sent (log_of p) ++ [r1; r2]
  /\ llm_requests (log_of p2) =
       llm_requests (log_of p) ++
         [llm_service.request
            [llm_service.system_message; llm_service.user_message m1];
          llm_service.request
            [llm_service.system_message; llm_service.user_message m2]].
Proof.
  intros Haccept E1 E2.
  destruct (exchange_log _ _ _ _ E1) as [Hl1 Hs1].
  destruct (exchange_log _ _ _ _ E2) as [Hl2 Hs2].
  assert (Hl0 : llm_requests (log_of p0) = llm_requests (log_of p)
                /\ sent (log_of p0) = sent (log_of p)).
  { unfold main.inside, call in Haccept.
    destruct (oracle _ websocket_accept (world (process_ext p))) as [[e|[]] w'];
      simpl in Haccept; [discriminate|].
    injection Haccept as <-. unfold log_of, llm_requests, sent. simpl.
    rewrite !omap_app. simpl. by rewrite !app_nil_r. }
  destruct Hl0 as [Hl0 Hs0].
  split; [|split].
  - unfold main.websocket_endpoint.
    rewrite (bind_returned _ _ _ _ _ Haccept).
    rewrite (try_except_raised _ _ p0 WebSocketDisconnect p2); [reflexivity|].
    rewrite websocket_loop_cons, (bind_returned _ _ _ _ _ E1).
    rewrite websocket_loop_cons, (bind_returned _ _ _ _ _ E2).
    reflexivity.
  - rewrite Hs2, Hs1, Hs0. by rewrite <- app_assoc.
  - rewrite Hl2, Hl1, Hl0. by rewrite <- app_assoc.
Qed.
End channel.


(** ** Runs that cannot raise *)

Section returns.
Context `{Host W}.
Import spotify_service.

Lemma guarded_returns {A} (m : M (Method W) A) (h : exn -> A) (a : A) (s : Method W) :
  exists r s',
    (client <- gets (fun s => sp (self s));;
     match client with
     | None => ret a
     | Some _ => try_except m (fun e => ret (h e))
     end) s = (Returned r, s').
Proof.
  unfold bind at 1, gets. destruct (sp (self s)).
  - apply try_except_total. intros e0 s1. now eexists _, _.
  - now eexists _, _.
Qed.

Lemma search_and_play_returns query search_type (s : Method W) :
  exists r s', search_and_play query search_type s = (Returned r, s').
Proof. apply guarded_returns. Qed.

Lemma control_playback_returns action (s : Method W) :
  exists r s', control_playback action s = (Returned r, s').
Proof. apply guarded_returns. Qed.

Lemma get_current_track_returns (s : Method W) :
  exists r s', get_current_track s = (Returned r, s').
Proof. apply guarded_returns. Qed.

Lemma method_returns {A} service (m : M (Method W) A) (p : Process W) :
  (forall s, exists r s', m s = (Returned r, s')) ->
  exists r p', method service m p = (Returned r, p').
Proof.
  intros Hm. unfold method.
  destruct (Hm {| self := service; ext := process_ext p |}) as (r & s' & E).
  rewrite E. now eexists _, _.
Qed.

(** On a mapping of arguments the dispatcher never raises. *)
Lemma execute_tool_call_returns (tool_name : pyval) (args : dict) (p : Process W) :
  exists r p', main.execute_tool_call tool_name (PDict args) p = (Returned r, p').
Proof.
  unfold main.execute_tool_call, main.get.
  destruct (eq_str tool_name "control_spotify").
  - destruct (get_spotify_service_returns p) as (service & e & E).
    rewrite (bind_assoc get_spotify_service), (bind_returned _ _ _ _ _ E).
    unfold bind at 1. unfold bind at 1. unfold ret at 1.
    destruct (in_strs _ _); [|destruct (eq_str _ "search"); [|destruct (eq_str _ "current")]].
    + destruct (method_returns service (control_playback (default PNone (args !! "action")))
                  {| _spotify_service := Some service; process_ext := e |}
                  (control_playback_returns _)) as (r & p' & Er).
      unfold bind. rewrite Er. now eexists _, _.
    + destruct (method_returns service
                  (search_and_play (default (PStr "") (args !! "query"))
                                   (default (PStr "track") (args !! "type")))
                  {| _spotify_service := Some service; process_ext := e |}
                  (search_and_play_returns _ _)) as (r & p' & Er).
      unfold bind, ret. rewrite Er. now eexists _, _.
    + destruct (method_returns service get_current_track
                  {| _spotify_service := Some service; process_ext := e |}
                  get_current_track_returns) as (r & p' & Er).
      unfold bind. rewrite Er. now eexists _, _.
    + now eexists _, _.
  - destruct (eq_str tool_name "manage_calendar"); [now eexists _, _|].
    destruct (eq_str tool_name "general_query"); now eexists _, _.
Qed.

Lemma inside_resolver_dict (user_input : string) (context : option (list dict))
    (p : Process W) :
  (forall text v, json_loads text = inr v -> exists d, v = PDict d) ->
  exists result p1,
    main.inside (llm_service.process_command user_input context) p =
      (Returned result, p1)
    /\ resolved result
    /\ (forall v, result !! "arguments" = Some v -> exists d, v = PDict d).
Proof.
  intros Hjson.
  unfold main.inside, llm_service.process_command, try_except, bind, call.
  destruct (oracle _ _ (world (process_ext p))) as [[e|response] w']; simpl.
  { eexists _, _. split; [reflexivity|]. split; [constructor|].
    intros v Hv. vm_compute in Hv. discriminate. }
  destruct (groq.choices response) as [|choice others]; simpl.
  { eexists _, _. split; [reflexivity|]. split; [constructor|].
    intros v Hv. vm_compute in Hv. discriminate. }
  destruct (groq.tool_calls (groq.message choice)) as [[|tool_call more]|]; simpl;
    try (eexists _, _; split; [reflexivity|]; split; [constructor|];
         intros v Hv; destruct (groq.content (groq.message choice));
         vm_compute in Hv; discriminate).
  destruct (json_loads (groq.arguments (groq.function tool_call)))
    as [e|args] eqn:Hloads; simpl;
    (eexists _, _; split; [reflexivity|]; split; [constructor|]); intros v Hv.
  - vm_compute in Hv. discriminate.
  - change (Some args = Some v) in Hv. injection Hv as <-. eauto.
Qed.

(** When [json.loads] gives mappings only, one response never raises. *)
Lemma respond_returns (data : string) (p : Process W) :
  (forall text v, json_loads text = inr v -> exists d, v = PDict d) ->
  exists r p', gateway.respond data p = (Returned r, p').
Proof.
  intros Hjson. unfold gateway.respond.
  destruct (inside_resolver_dict data None p Hjson)
    as (result & p1 & E & Hshape & Hargs).
  rewrite (bind_returned _ _ _ _ _ E).
  destruct Hshape as [d | c | n a raw].
  - rewrite (bind_returned _ _ _ _ _ (is_tool_call_error d p1)). now eexists _, _.
  - rewrite (bind_returned _ _ _ _ _ (is_tool_call_direct c p1)). now eexists _, _.
  - rewrite (bind_returned _ _ _ _ _ (is_tool_call_tool n a raw p1)).
    destruct (negb (String.eqb n "")); [|now eexists _, _].
    rewrite (bind_returned _ _ p1 (PStr n) p1) by reflexivity.
    destruct (Hargs a eq_refl) as (d & ->).
    change (default (PDict ∅) (_ !! "arguments")) with (PDict d).
    destruct (execute_tool_call_returns (PStr n) d p1) as (r & p' & Er).
    rewrite (bind_returned _ _ _ _ _ Er). now eexists _, _.
Qed.

(** And the single-shot endpoint returns a response. *)
Lemma process_command_returns (request : main.CommandRequest) (p : Process W) :
  (forall text v, json_loads text = inr v -> exists d, v = PDict d) ->
  exists response p', main.process_command request p = (Returned response, p').
Proof.
  intros Hjson. unfold main.process_command.
  destruct (inside_resolver_dict (main.text request) (main.context request) p Hjson)
    as (result & p1 & E & Hshape & Hargs).
  rewrite (bind_returned _ _ _ _ _ E).
  destruct Hshape as [d | c | n a raw].
  - rewrite (bind_returned _ _ _ _ _ (is_tool_call_error d p1)).
    now eexists _, _.
  - rewrite (bind_returned _ _ _ _ _ (is_tool_call_direct c p1)).
    destruct c; now eexists _, _.
  - rewrite (bind_returned _ _ _ _ _ (is_tool_call_tool n a raw p1)).
    destruct (Hargs a eq_refl) as (d & ->).
    destruct (negb (String.eqb n "")).
    + unfold bind at 1.
      rewrite (bind_returned _ _ p1 (PStr n) p1) by reflexivity.
      change (default (PDict ∅) (_ !! "arguments")) with (PDict d).
      destruct (execute_tool_call_returns (PStr n) d p1) as (r & p' & Er).
      rewrite (bind_returned _ _ _ _ _ Er).
      destruct raw; now eexists _, _.
    + destruct raw; now eexists _, _.
Qed.
End returns.


(** ** Witnesses and counterexamples on the small host *)

(** C5 at the response "42". *)
Lemma general_query_passes_through_witness :
  main.execute_tool_call (H:=toy.host) (PStr "general_query")
    (PDict (mkdict [("response", PStr "42")])) toy.fresh =
  (Returned (mkdict [("status", PStr "success"); ("message", PStr "42")]), toy.fresh).
Proof.
  apply (general_query_passes_through (H:=toy.host) "42"). reflexivity.
Defined.

(** C7 at the tool name "frobnicate". *)
Lemma unknown_tool_is_an_error_witness :
  main.execute_tool_call (H:=toy.host) (PStr "frobnicate") (PDict ∅) toy.fresh =
  (Returned (mkdict [("status", PStr "error");
                     ("message", PStr "Unknown tool: frobnicate")]), toy.fresh).
Proof.
  apply (unknown_tool_is_an_error (H:=toy.host) "frobnicate" ∅ toy.fresh).
  intros Hin. repeat (apply elem_of_cons in Hin as [Hin|Hin]; [discriminate|]).
  by apply elem_of_nil in Hin.
Defined.

(** C1: an unrecognised action does get a result. *)
Lemma unrecognised_action_counterexample :
  ~ (forall result p',
       main.execute_tool_call (H:=toy.host) (PStr "control_spotify")
         (PDict (mkdict [("action", PStr "shuffle")])) toy.fresh
       <> (Returned result, p')).
Proof.
  intros Hnone.
  apply (Hnone
    (mkdict [("status", PStr "error");
             ("message", PStr "Unknown tool: control_spotify")])
    (main.execute_tool_call (H:=toy.host) (PStr "control_spotify")
       (PDict (mkdict [("action", PStr "shuffle")])) toy.fresh).2).
  rewrite (surjective_pairing (main.execute_tool_call _ _ toy.fresh)) at 1.
  f_equal; vm_compute; reflexivity.
Qed.

(** C1, as amended, at the action "shuffle". *)
Lemma unrecognised_action_reaches_last_return_witness :
  main.execute_tool_call (H:=toy.host) (PStr "control_spotify")
    (PDict (mkdict [("action", PStr "shuffle")])) toy.fresh =
  (Returned (mkdict [("status", PStr "error");
                     ("message", PStr "Unknown tool: control_spotify")]),
   (spotify_service.get_spotify_service (H:=toy.host) toy.fresh).2).
Proof.
  apply (unrecognised_action_reaches_last_return (H:=toy.host)).
  intros a Ha. change (PStr "shuffle" <> PStr a). intros [= <-].
  repeat (apply elem_of_cons in Ha as [Ha|Ha]; [discriminate|]).
  by apply elem_of_nil in Ha.
Defined.

(** C9 at the service whose initialization failed. *)
Lemma uninitialized_client_reports_error_witness :
  let s := {| self := toy.failed_service; ext := toy.outside_world false true |} in
  let failure :=
    mkdict [("status", PStr "error");
            ("message", PStr "Spotify not initialized. Please run auth_spotify_fixed.py")] in
  spotify_service.search_and_play (H:=toy.host) (PStr "Imagine") (PStr "track") s =
    (Returned failure, s)
  /\ spotify_service.control_playback (H:=toy.host) (PStr "play") s = (Returned failure, s)
  /\ spotify_service.get_current_track (H:=toy.host) s = (Returned failure, s).
Proof.
  apply (uninitialized_client_reports_error (H:=toy.host) toy.failed_service
           (toy.outside_world false true) (PStr "Imagine") (PStr "track") (PStr "play")).
  reflexivity.
Defined.



(** C6: the integration is initialized and its search finds no track, yet
    with no device open the result is the no-device error. *)
Lemma search_without_match_counterexample :
  sp toy.deviceless_service = Some toy.client
  /\ (forall q w,
        (oracle (Host:=toy.host) _ (search q "track" 10) w).1 =
          inr (PDict (mkdict [("tracks", PDict (mkdict [("items", PList [])]))])))
  /\ (main.execute_tool_call (H:=toy.host) (PStr "control_spotify")
        (PDict (mkdict [("action", PStr "search"); ("query", PStr "Imagine");
                        ("type", PStr "track")])) toy.deviceless).1 =
       Returned (mkdict [("status", PStr "error");
                         ("message", PStr "No Spotify device available. Please open Spotify.")])
  /\ (main.execute_tool_call (H:=toy.host) (PStr "control_spotify")
        (PDict (mkdict [("action", PStr "search"); ("query", PStr "Imagine");
                        ("type", PStr "track")])) toy.deviceless).1 <>
       Returned (mkdict [("status", PStr "error");
                         ("message", PStr "No track found for 'Imagine'")]).
Proof.
  split; [reflexivity|]. split; [reflexivity|].
  assert (Hrun :
    (main.execute_tool_call (H:=toy.host) (PStr "control_spotify")
        (PDict (mkdict [("action", PStr "search"); ("query", PStr "Imagine");
                        ("type", PStr "track")])) toy.deviceless).1 =
       Returned (mkdict [("status", PStr "error");
                         ("message", PStr "No Spotify device available. Please open Spotify.")])).
  { vm_compute. reflexivity. }
  split; [exact Hrun|].
  rewrite Hrun. intros Heq.
  apply (f_equal (fun o : outcome dict =>
                    match o with
                    | Returned d => d !! "message"
                    | Raised _ => None
                    end)) in Heq.
  vm_compute in Heq. discriminate.
Qed.

(** C6, as amended, on the ready service. *)
Lemma search_without_match_reports_no_track_witness :
  main.execute_tool_call (H:=toy.host) (PStr "control_spotify")
    (PDict (mkdict [("action", PStr "search"); ("query", PStr "Imagine");
                    ("type", PStr "track")])) toy.ready =
  (Returned (mkdict [("status", PStr "error");
                     ("message", PStr "No track found for 'Imagine'")]),
   {| _spotify_service := Some toy.ready_service;
      process_ext :=
        {| world := {| toy.playing := true; toy.device_open := true |};
           calls := [event (search (PStr "Imagine") "track" 10)] |} |}).
Proof.
  apply (search_without_match_reports_no_track (H:=toy.host) toy.ready
           toy.ready_service toy.client
           (PDict (mkdict [("tracks", PDict (mkdict [("items", PList [])]))]))
           {| toy.playing := true; toy.device_open := true |});
    reflexivity.
Defined.

(** C2: the model names no tool; the response has type [tool_call] and a
    tool that is not null, and no execution result. *)
Lemma response_invariant_counterexample :
  let response :=
    {| main.type := "tool_call"; main.tool := Some "";
       main.arguments := Some ∅; main.content := None; main.error := None;
       main.execution_result := None |} in
  (main.process_command (H:=toy.host)
     {| main.text := "nameless"; main.context := None |} toy.ready).1 =
    Returned response
  /\ ~ (is_Some (main.execution_result response) <->
        main.type response = "tool_call" /\ main.tool response <> None).
Proof.
  split; [vm_compute; reflexivity|].
  intros [_ Hback]. destruct Hback as [? [=]]. split; done.
Qed.

(** C2, as amended, at the command "pause". *)
Lemma response_invariant_witness :
  let run :=
    main.process_command (H:=toy.host)
      {| main.text := "pause"; main.context := None |} toy.ready in
  let response :=
    {| main.type := "tool_call"; main.tool := Some "control_spotify";
       main.arguments := Some (mkdict [("action", PStr "pause")]);
       main.content := None; main.error := None;
       main.execution_result :=
         Some (mkdict [("status", PStr "success");
                       ("message", PStr "Playback paused")]) |} in
  run = (Returned response, run.2)
  /\ main.type response ∈ ["tool_call"; "direct_response"; "error"]
  /\ (is_Some (main.execution_result response) <->
      main.type response = "tool_call"
      /\ exists t, main.tool response = Some t /\ t <> "").
Proof.
  intros run response.
  assert (Hrun : run = (Returned response, run.2)).
  { apply injective_projections; [vm_compute; reflexivity | reflexivity]. }
  split; [exact Hrun|].
  exact (response_invariant (H:=toy.host) _ _ _ _ Hrun).
Defined.

(** C8: the same second message, after two different first messages, gets
    two different responses. *)
Lemma channel_second_response_counterexample :
  gateway.responses (H:=toy.host) ["pause"; "current"] toy.ready !! 1%nat <>
  gateway.responses (H:=toy.host) ["play"; "current"] toy.ready !! 1%nat.
Proof.
  intros Heq.
  apply (f_equal (fun o : option dict =>
                    match o with
                    | Some d =>
                        match d !! "execution_result" with
                        | Some (PDict r) => r !! "is_playing"
                        | _ => None
                        end
                    | None => None
                    end)) in Heq.
  vm_compute in Heq. discriminate.
Qed.

(** C8, as amended, at the messages "pause" and "current". *)
Lemma channel_serves_in_order_witness :
  let r1 :=
    mkdict [("type", PStr "tool_call"); ("tool", PStr "control_spotify");
            ("arguments", PDict (mkdict [("action", PStr "pause")]));
            ("raw_response", PNone);
            ("execution_result",
             PDict (mkdict [("status", PStr "success");
                            ("message", PStr "Playback paused")]))] in
  let r2 :=
    mkdict [("type", PStr "tool_call"); ("tool", PStr "control_spotify");
            ("arguments", PDict (mkdict [("action", PStr "current")]));
            ("raw_response", PNone);
            ("execution_result",
             PDict (mkdict [("status", PStr "success");
                            ("is_playing", PBool false);
                            ("track", PStr "Imagine");
                            ("artist", PStr "John Lennon");
                            ("album", PStr "Imagine");
                            ("progress", PInt 1000);
                            ("duration", PInt 183000)]))] in
  gateway.responses (H:=toy.host) ["pause"; "current"] toy.ready = [r1; r2]
  /\ llm_requests
       (log_of (main.websocket_endpoint (H:=toy.host) ["pause"; "current"] toy.ready).2) =
     [llm_service.request [llm_service.system_message; llm_service.user_message "pause"];
      llm_service.request [llm_service.system_message; llm_service.user_message "current"]].
Proof.
  intros r1 r2.
  set (p0 := (main.inside (call (H:=toy.host) websocket_accept) toy.ready).2).
  set (p1 := (gateway.exchange (H:=toy.host) "pause" p0).2).
  set (p2 := (gateway.exchange (H:=toy.host) "current" p1).2).
  destruct (channel_serves_in_order (H:=toy.host) "pause" "current"
              toy.ready p0 p1 p2 r1 r2) as (Hrun & Hsent & Hllm).
  - apply injective_projections; [vm_compute; reflexivity | reflexivity].
  - apply injective_projections; [vm_compute; reflexivity | reflexivity].
  - apply injective_projections; [vm_compute; reflexivity | reflexivity].
  - unfold gateway.responses. rewrite Hrun. simpl snd.
    split; [exact Hsent | exact Hllm].
Defined.


(** * Further properties of the code *)

(** ** The singleton *)

Section singleton.
Context `{Host W}.
Import spotify_service.

(** X1.  The service is built at most once: after a first call,
    [get_spotify_service] returns the same object again and touches
    nothing, whether or not the object's initialization succeeded. *)
Theorem singleton_is_built_once (p : Process W) :
  get_spotify_service (get_spotify_service p).2 =
    ((get_spotify_service p).1, (get_spotify_service p).2).
Proof.
  destruct (get_spotify_service_returns p) as (service & e & E).
  rewrite E. simpl. now apply get_spotify_service_cached.
Qed.

Lemma api_raise {R} (attr : string) (c : Call R) (s : Method W) client e w' :
  sp (self s) = Some client ->
  oracle R c (world (ext s)) = (inl e, w') ->
  api attr c s =
    (Raised e,
     {| self := self s;
        ext := {| world := w'; calls := calls (ext s) ++ [event c] |} |}).
Proof.
  intros Hsp Hc. unfold api, bind, gets, outside, call.
  rewrite Hsp, Hc. reflexivity.
Qed.

Lemma method_run {A} service (m : M (Method W) A) (p : Process W) r s' :
  m {| self := service; ext := process_ext p |} = (r, s') ->
  method service m p =
    (r, {| _spotify_service := Some (self s'); process_ext := ext s' |}).
Proof. intros E. unfold method. now rewrite E. Qed.

Lemma uninitialized_methods (service : SpotifyService) (e : Ext W) :
  sp service = None ->
  let s := {| self := service; ext := e |} in
  (forall query search_type,
     search_and_play query search_type s = (Returned not_initialized, s))
  /\ (forall action, control_playback action s = (Returned not_initialized, s))
  /\ get_current_track s = (Returned not_initialized, s).
Proof.
  intros Hsp s.
  unfold search_and_play, control_playback, get_current_track, bind, gets.
  subst s. simpl. rewrite Hsp. auto.
Qed.

(** X2.  A failed initialization is permanent: once the singleton exists
    with no client handle, every [control_spotify] dispatch with one of the
    six actions returns the not-initialized error and leaves the process
    state as it was; nothing is called, nothing is retried. *)
Theorem failed_initialization_is_permanent (p : Process W) service
    (args : dict) (a : string) :
  _spotify_service p = Some service ->
  sp service = None ->
  args !! "action" = Some (PStr a) ->
  a ∈ ["play"; "pause"; "skip"; "previous"; "search"; "current"] ->
  main.execute_tool_call (PStr "control_spotify") (PDict args) p =
    (Returned (mkdict
       [("status", PStr "error");
        ("message", PStr "Spotify not initialized. Please run auth_spotify_fixed.py")]),
     p).
Proof.
  intros Hservice Hsp Haction Ha.
  destruct (uninitialized_methods service (process_ext p) Hsp) as (Hs & Hc & Hg).
  assert (Hp : {| _spotify_service := Some service; process_ext := process_ext p |} = p).
  { destruct p; simpl in *; now subst. }
  unfold main.execute_tool_call.
  erewrite (bind_returned _ _ p (Some _)); [reflexivity|].
  change (eq_str (PStr "control_spotify") "control_spotify") with true. cbv iota.
  rewrite (bind_returned _ _ _ _ _ (get_spotify_service_cached p service Hservice)).
  rewrite (bind_returned _ _ p (PStr a) p)
    by (unfold main.get, ret; now rewrite Haction).
  repeat (apply elem_of_cons in Ha as [->|Ha]);
    [ .. | by apply elem_of_nil in Ha ];
    match goal with
    | |- context [in_strs ?v ?l] =>
        let b := eval vm_compute in (in_strs v l) in
        change (in_strs v l) with b
    end; cbv iota.
  1-4: erewrite bind_returned;
       [reflexivity | rewrite (method_run _ _ _ _ _ (Hc _)); simpl; now rewrite Hp].
  - change (eq_str (PStr "search") "search") with true. cbv iota.
    unfold main.get. cbv beta iota.
    rewrite !(bind_returned (ret _) _ p _ p eq_refl).
    erewrite bind_returned;
      [reflexivity | rewrite (method_run _ _ _ _ _ (Hs _ _)); simpl; now rewrite Hp].
  - change (eq_str (PStr "current") "search") with false.
    change (eq_str (PStr "current") "current") with true. cbv iota.
    erewrite bind_returned;
      [reflexivity | rewrite (method_run _ _ _ _ _ Hg); simpl; now rewrite Hp].
Qed.
End singleton.

Lemma failed_initialization_is_permanent_witness :
  main.execute_tool_call (H:=scripted.host) (PStr "control_spotify")
    (PDict (mkdict [("action", PStr "pause")])) (scripted.broken scripted.calm) =
    (Returned (mkdict
       [("status", PStr "error");
        ("message", PStr "Spotify not initialized. Please run auth_spotify_fixed.py")]),
     scripted.broken scripted.calm).
Proof.
  apply (failed_initialization_is_permanent (H:=scripted.host)
           (scripted.broken scripted.calm) toy.failed_service _ "pause");
    [reflexivity | reflexivity | reflexivity |].
  repeat constructor.
Defined.

(** ** Devices *)

Section devices.
Context `{Host W}.
Import spotify_service.

Lemma is_device_field (d : pyval) (k : string) :
  is_device d -> k ∈ ["id"; "is_active"; "name"] ->
  getitem d k = inr (device_field d k).
Proof.
  intros (fields & -> & Hid & Hactive & Hname) Hk.
  unfold device_field. simpl.
  repeat (apply elem_of_cons in Hk as [->|Hk]); [ .. | by apply elem_of_nil in Hk ].
  - by destruct Hid as [v ->].
  - by destruct Hactive as [v ->].
  - by destruct Hname as [v ->].
Qed.

Lemma is_device_truthy (d : pyval) : is_device d -> truthy d = true.
Proof.
  intros (fields & -> & [v Hid] & _). simpl.
  destruct (size fields) eqn:Hsize; [|done].
  apply map_size_empty_iff in Hsize. subst. by rewrite lookup_empty in Hid.
Qed.

Lemma first_active_find (l : list pyval) :
  Forall is_device l ->
  first_active l =
    inr (default PNone (List.find (fun d => truthy (device_field d "is_active")) l)).
Proof.
  induction 1 as [|d l Hd _ IH]; [done|]. simpl.
  rewrite (is_device_field d "is_active" Hd) by (repeat constructor).
  destruct (truthy (device_field d "is_active")); [done | exact IH].
Qed.

(** X3.  The device lookup settles on the first device the listing marks
    active, else on the first device listed, else on none; it logs the one
    listing call and keeps the client handle. *)
Theorem device_lookup_prefers_active (s : Method W) client listing
    (l : list pyval) w' :
  sp (self s) = Some client ->
  oracle _ devices (world (ext s)) = (inr listing, w') ->
  getitem listing "devices" = inr (PList l) ->
  Forall is_device l ->
  _get_device s =
    (Returned tt,
     {| self := {| scope := scope (self s); sp := sp (self s);
                   device_id := chosen_device l |};
        ext := {| world := w'; calls := calls (ext s) ++ [event devices] |} |}).
Proof.
  intros Hsp Hlist Hdevs Hwf. unfold _get_device.
  erewrite try_except_returned; [reflexivity|].
  rewrite (bind_returned _ _ _ _ _ (api_run _ _ _ _ _ _ Hsp Hlist)).
  unfold item at 1. rewrite Hdevs.
  erewrite (bind_returned (eval _)); [|reflexivity].
  unfold chosen_device.
  destruct l as [|d l]; [reflexivity|].
  change (truthy (PList (d :: l))) with true. cbv iota.
  erewrite (bind_returned (elements _)); [|reflexivity].
  rewrite (first_active_find _ Hwf).
  erewrite (bind_returned (eval _)); [|reflexivity].
  destruct (List.find _ (d :: l)) as [found|] eqn:Hfind.
  - apply find_some in Hfind as [Hin _].
    assert (Hfound : is_device found).
    { eapply Forall_forall in Hwf; [exact Hwf|]. by apply list_elem_of_In. }
    change (default PNone (Some found)) with found.
    rewrite (is_device_truthy _ Hfound).
    unfold item.
    rewrite (is_device_field found "id" Hfound) by (repeat constructor).
    rewrite (is_device_field found "name" Hfound) by (repeat constructor).
    reflexivity.
  - change (truthy (default PNone None)) with false. cbv iota.
    assert (Hd : is_device d) by (by inversion Hwf).
    unfold item0, item. simpl getitem0.
    erewrite (bind_returned (eval (inr d))); [|reflexivity].
    rewrite (is_device_field d "id" Hd) by (repeat constructor).
    rewrite (is_device_field d "name" Hd) by (repeat constructor).
    reflexivity.
Qed.

(** X4.  When the listing call raises, the lookup swallows the error and
    the cached device stays what it was. *)
Theorem device_lookup_failure_keeps_cache (s : Method W) client e w' :
  sp (self s) = Some client ->
  oracle _ devices (world (ext s)) = (inl e, w') ->
  _get_device s =
    (Returned tt,
     {| self := self s;
        ext := {| world := w'; calls := calls (ext s) ++ [event devices] |} |}).
Proof.
  intros Hsp Hlist. unfold _get_device.
  erewrite try_except_raised; [reflexivity|].
  now rewrite (bind_raised _ _ _ _ _ (api_raise _ _ _ _ _ _ Hsp Hlist)).
Qed.

(** X5.  With the client initialized but no device cached and none found
    by the lookup, [search_and_play] returns the no-device error and never
    searches: it stops in the state the lookup left. *)
Theorem search_needs_a_device (query search_type : pyval) (s : Method W) client :
  sp (self s) = Some client ->
  truthy (device_id (self (with_device s))) = false ->
  search_and_play query search_type s =
    (Returned (mkdict
       [("status", PStr "error");
        ("message", PStr "No Spotify device available. Please open Spotify.")]),
     (_get_device s).2).
Proof.
  intros Hsp Hdev. unfold with_device in Hdev.
  destruct (truthy (device_id (self s))) eqn:Hcached; [congruence|].
  unfold search_and_play. cbv zeta.
  rewrite (bind_returned _ _ s (Some client) s) by (unfold gets; now rewrite Hsp).
  destruct (_get_device_returns s) as (s1 & Eg). rewrite Eg in *. simpl in Hdev.
  unfold try_except, bind, gets. simpl.
  rewrite Hcached. simpl. rewrite Eg. simpl. now rewrite Hdev.
Qed.
End devices.

Lemma device_lookup_prefers_active_witness :
  let s := {| self := scripted.service PNone;
              ext := scripted.outside_of
                       (scripted.with_devices
                          (inr (scripted.listing
                                  [scripted.laptop false; scripted.phone true]))
                          scripted.calm) |} in
  device_id (self (spotify_service._get_device (H:=scripted.host) s).2) = PStr "phone".
Proof.
  intros s.
  rewrite (device_lookup_prefers_active (H:=scripted.host) s toy.client
             (scripted.listing [scripted.laptop false; scripted.phone true])
             [scripted.laptop false; scripted.phone true] (world (ext s)));
    [reflexivity | reflexivity | reflexivity | reflexivity |].
  repeat constructor; eexists; (split; [reflexivity|]); repeat split; by eexists.
Defined.

Lemma device_lookup_failure_keeps_cache_witness :
  let s := {| self := scripted.service (PStr "laptop");
              ext := scripted.outside_of
                       (scripted.with_devices (inl (LibraryError "timed out"))
                          scripted.calm) |} in
  device_id (self (spotify_service._get_device (H:=scripted.host) s).2) = PStr "laptop".
Proof.
  intros s.
  rewrite (device_lookup_failure_keeps_cache (H:=scripted.host) s toy.client
             (LibraryError "timed out") (world (ext s)));
    reflexivity.
Defined.

Lemma search_needs_a_device_witness :
  let s := {| self := scripted.service PNone;
              ext := scripted.outside_of
                       (scripted.with_devices (inr (scripted.listing []))
                          scripted.calm) |} in
  (spotify_service.search_and_play (H:=scripted.host) (PStr "Imagine") (PStr "track") s).1 =
    Returned (mkdict
       [("status", PStr "error");
        ("message", PStr "No Spotify device available. Please open Spotify.")])
  /\ calls (ext (spotify_service.search_and_play (H:=scripted.host)
                   (PStr "Imagine") (PStr "track") s).2) = [event devices].
Proof.
  intros s.
  rewrite (search_needs_a_device (H:=scripted.host) (PStr "Imagine") (PStr "track")
             s toy.client); [|reflexivity|reflexivity].
  split; reflexivity.
Defined.

(** ** Playback control and the current track *)

Section playback.
Context `{Host W}.
Import spotify_service.

Lemma control_playback_run (a : string) (s : Method W) client c message answer w' :
  sp (self s) = Some client ->
  verb_call a (device_id (self s)) = Some (c, message) ->
  oracle _ c (world (ext s)) = (answer, w') ->
  control_playback (PStr a) s =
    (Returned (playback_result message answer),
     {| self := self s;
        ext := {| world := w'; calls := calls (ext s) ++ [event c] |} |}).
Proof.
  intros Hsp Hverb Hanswer. unfold control_playback.
  rewrite (bind_returned _ _ s (Some client) s) by (unfold gets; now rewrite Hsp).
  unfold verb_call in Hverb. unfold eq_str.
  assert (Hrun : forall attr,
    try_except
      (device <- gets (fun s : Method W => device_id (self s));;
       _ <- api attr c;;
       ret (status_message "success" message))
      (fun e => ret (control_playback_except e)) s =
    (Returned (playback_result message answer),
     {| self := self s;
        ext := {| world := w'; calls := calls (ext s) ++ [event c] |} |})).
  { intros attr. destruct answer as [e|v].
    - erewrite try_except_raised;
        [| erewrite (bind_returned (gets _)); [|reflexivity];
           now rewrite (bind_raised _ _ _ _ _ (api_raise _ _ _ _ _ _ Hsp Hanswer)) ].
      destruct e; reflexivity.
    - erewrite try_except_returned; [reflexivity|].
      erewrite (bind_returned (gets _)); [|reflexivity].
      now rewrite (bind_returned _ _ _ _ _ (api_run _ _ _ _ _ _ Hsp Hanswer)). }
  destruct (String.eqb a "play"); [injection Hverb as <- <-; apply Hrun|].
  destruct (String.eqb a "pause"); [injection Hverb as <- <-; apply Hrun|].
  destruct (String.eqb a "skip" || String.eqb a "next");
    [injection Hverb as <- <-; apply Hrun|].
  destruct (String.eqb a "previous"); [injection Hverb as <- <-; apply Hrun|].
  discriminate.
Qed.

(** X6.  Dispatching a playback verb against an initialized service makes
    exactly one client call, for the cached device and without any device
    lookup, and turns its answer into the result: success with the verb's
    message, or an error that tells status 404 (no active device) and 403
    (premium required) apart from anything else.  The service object is
    unchanged. *)
Theorem playback_verb_makes_one_call (p : Process W) service client
    (args : dict) (a : string) c message answer w' :
  _spotify_service p = Some service ->
  sp service = Some client ->
  args !! "action" = Some (PStr a) ->
  a ∈ ["play"; "pause"; "skip"; "previous"] ->
  verb_call a (device_id service) = Some (c, message) ->
  oracle _ c (world (process_ext p)) = (answer, w') ->
  main.execute_tool_call (PStr "control_spotify") (PDict args) p =
    (Returned (playback_result message answer),
     {| _spotify_service := Some service;
        process_ext :=
          {| world := w'; calls := calls (process_ext p) ++ [event c] |} |}).
Proof.
  intros Hservice Hsp Haction Ha Hverb Hanswer.
  unfold main.execute_tool_call.
  erewrite (bind_returned _ _ p (Some _)); [reflexivity|].
  change (eq_str (PStr "control_spotify") "control_spotify") with true. cbv iota.
  rewrite (bind_returned _ _ _ _ _ (get_spotify_service_cached p service Hservice)).
  rewrite (bind_returned _ _ p (PStr a) p)
    by (unfold main.get, ret; now rewrite Haction).
  assert (Hin : in_strs (PStr a) ["play"; "pause"; "skip"; "previous"] = true).
  { repeat (apply elem_of_cons in Ha as [->|Ha]); [ .. | by apply elem_of_nil in Ha ];
      reflexivity. }
  rewrite Hin.
  erewrite bind_returned; [reflexivity|].
  exact (method_run service _ p _ _
           (control_playback_run a {| self := service; ext := process_ext p |}
              client c message answer w' Hsp Hverb Hanswer)).
Qed.

(** X7.  A verb [control_playback] does not know gets the error result
    that names it; no call is made. *)
Theorem unknown_verb_is_named (a : string) (s : Method W) client :
  sp (self s) = Some client ->
  a ∉ ["play"; "pause"; "skip"; "next"; "previous"] ->
  control_playback (PStr a) s =
    (Returned (mkdict [("status", PStr "error");
                       ("message", PStr ("Unknown action: " +:+ a))]), s).
Proof.
  intros Hsp Ha. unfold control_playback.
  rewrite (bind_returned _ _ s (Some client) s) by (unfold gets; now rewrite Hsp).
  rewrite !eq_str_neq by (intros ->; apply Ha; set_solver).
  reflexivity.
Qed.

(** X8.  When the player reports nothing (no playback object, or one
    without an item), [get_current_track] answers with status [success]
    and the message that no track is playing. *)
Theorem nothing_playing_is_a_success (s : Method W) client current w' :
  sp (self s) = Some client ->
  oracle _ current_playback (world (ext s)) = (inr current, w') ->
  truthy current = false
  \/ (exists it, getitem current "item" = inr it /\ truthy it = false) ->
  get_current_track s =
    (Returned (mkdict [("status", PStr "success");
                       ("message", PStr "No track currently playing")]),
     {| self := self s;
        ext := {| world := w';
                  calls := calls (ext s) ++ [event current_playback] |} |}).
Proof.
  intros Hsp Hcurrent Hnothing. unfold get_current_track.
  rewrite (bind_returned _ _ s (Some client) s) by (unfold gets; now rewrite Hsp).
  erewrite try_except_returned; [reflexivity|].
  rewrite (bind_returned _ _ _ _ _ (api_run _ _ _ _ _ _ Hsp Hcurrent)).
  erewrite (bind_returned _ _ _ false); [reflexivity|].
  destruct (truthy current) eqn:Htruthy; [|reflexivity].
  destruct Hnothing as [?|(it & Hitem & Hit)]; [congruence|].
  unfold item. rewrite Hitem.
  erewrite (bind_returned (eval _)); [|reflexivity]. now rewrite Hit.
Qed.

(** X9.  Whatever the current-playback call raises, [get_current_track]
    returns the error result carrying that exception's text; unlike the
    other two methods it does not single out any HTTP status. *)
Theorem current_track_failure_is_reported (s : Method W) client e w' :
  sp (self s) = Some client ->
  oracle _ current_playback (world (ext s)) = (inl e, w') ->
  get_current_track s =
    (Returned (mkdict [("status", PStr "error"); ("message", PStr (str_exn e))]),
     {| self := self s;
        ext := {| world := w';
                  calls := calls (ext s) ++ [event current_playback] |} |}).
Proof.
  intros Hsp Hcurrent. unfold get_current_track.
  rewrite (bind_returned _ _ s (Some client) s) by (unfold gets; now rewrite Hsp).
  erewrite try_except_raised; [reflexivity|].
  now rewrite (bind_raised _ _ _ _ _ (api_raise _ _ _ _ _ _ Hsp Hcurrent)).
Qed.
End playback.

Lemma playback_verb_makes_one_call_witness :
  let w := scripted.with_playback
             (inl (SpotifyException 404 "http status: 404")) scripted.calm in
  main.execute_tool_call (H:=scripted.host) (PStr "control_spotify")
    (PDict (mkdict [("action", PStr "skip")])) (scripted.running PNone w) =
    (Returned (mkdict [("status", PStr "error");
                       ("message", PStr "No active device found. Please open Spotify.")]),
     {| _spotify_service := Some (scripted.service PNone);
        process_ext := {| world := w; calls := [event (next_track PNone)] |} |}).
Proof.
  intros w.
  apply (playback_verb_makes_one_call (H:=scripted.host) (scripted.running PNone w)
           (scripted.service PNone) toy.client _ "skip" (next_track PNone)
           "Skipped to next track" (inl (SpotifyException 404 "http status: 404")) w);
    try reflexivity.
  repeat constructor.
Defined.

Lemma unknown_verb_is_named_witness :
  let s := {| self := scripted.service PNone;
              ext := scripted.outside_of scripted.calm |} in
  spotify_service.control_playback (H:=scripted.host) (PStr "shuffle") s =
    (Returned (mkdict [("status", PStr "error");
                       ("message", PStr "Unknown action: shuffle")]), s).
Proof.
  intros s.
  apply (unknown_verb_is_named (H:=scripted.host) "shuffle" s toy.client);
    [reflexivity|].
  intros Hin. repeat (apply elem_of_cons in Hin as [Hin|Hin]; [discriminate|]).
  by apply elem_of_nil in Hin.
Defined.

Lemma nothing_playing_is_a_success_witness :
  let s := {| self := scripted.service PNone;
              ext := scripted.outside_of scripted.calm |} in
  (spotify_service.get_current_track (H:=scripted.host) s).1 =
    Returned (mkdict [("status", PStr "success");
                      ("message", PStr "No track currently playing")]).
Proof.
  intros s.
  rewrite (nothing_playing_is_a_success (H:=scripted.host) s toy.client PNone
             scripted.calm); [reflexivity | reflexivity | reflexivity |].
  left. reflexivity.
Defined.

Lemma current_track_failure_is_reported_witness :
  let s := {| self := scripted.service PNone;
              ext := scripted.outside_of
                       {| scripted.model_says := inr (toy.text_reply "Hello.");
                          scripted.file_exists := inr true;
                          scripted.cached_token := inr PNone;
                          scripted.token_expired := inr false;
                          scripted.refreshed := inr PNone;
                          scripted.profile := inr PNone;
                          scripted.device_list := inr PNone;
                          scripted.search_results := inr PNone;
                          scripted.top_tracks := inr PNone;
                          scripted.playback := inr PNone;
                          scripted.now_playing :=
                            inl (SpotifyException 404 "http status: 404");
                          scripted.accepted := inr tt;
                          scripted.delivered := inr tt |} |} in
  (spotify_service.get_current_track (H:=scripted.host) s).1 =
    Returned (mkdict [("status", PStr "error");
                      ("message", PStr "http status: 404")]).
Proof.
  intros s.
  rewrite (current_track_failure_is_reported (H:=scripted.host) s toy.client
             (SpotifyException 404 "http status: 404") (world (ext s)));
    reflexivity.
Defined.

(** ** More on searching *)

Section searching.
Context `{Host W}.
Import spotify_service.

Lemma search_and_play_after_device (query search_type : pyval) (s : Method W) client :
  sp (self s) = Some client ->
  truthy (device_id (self (with_device s))) = true ->
  search_and_play query search_type s =
    try_except (search_part query search_type)
      (fun e => ret (search_and_play_except e)) (with_device s).
Proof.
  intros Hsp Hdev. unfold search_and_play. cbv zeta.
  rewrite (bind_returned _ _ s (Some client) s) by (unfold gets; now rewrite Hsp).
  fold (search_part query search_type).
  generalize (search_part query search_type). intros part.
  unfold with_device in *. unfold try_except, bind, gets. simpl.
  destruct (truthy (device_id (self s))) eqn:Hcached; simpl; [reflexivity|].
  destruct (_get_device_returns s) as (s1 & Eg). rewrite Eg in *. simpl in *.
  now rewrite Hdev.
Qed.

Lemma hit_found (t kind : string) results items (s : Method W) :
  items_of results kind = inr items ->
  hit t t kind results s = (Returned (truthy items), s).
Proof.
  intros Hitems. unfold hit, items_of, item, bind, eval in *.
  rewrite String.eqb_refl.
  destruct (getitem results kind) as [e|group]; [discriminate|]. simpl.
  now rewrite Hitems.
Qed.

Lemma first_item_run (kind : string) results items x (s : Method W) :
  items_of results kind = inr items ->
  getitem0 items = inr x ->
  first_item results kind s = (Returned x, s).
Proof.
  intros Hitems Hx. unfold first_item, items_of, item, item0, bind, eval in *.
  destruct (getitem results kind) as [e|group]; [discriminate|]. simpl.
  rewrite Hitems. simpl. now rewrite Hx.
Qed.



(** X11.  An artist that is found but has no top tracks is reported as not
    found: nothing is played and the result is the no-match error. *)
Theorem artist_without_top_tracks_is_not_found (query search_type : string)
    (s : Method W) client results w1 artist more artist_id tops top w2 :
  sp (self s) = Some client ->
  truthy (device_id (self (with_device s))) = true ->
  type_mapping_get (PStr search_type) = inr "artist" ->
  oracle _ (search (PStr query) "artist" 10) (world (ext (with_device s))) =
    (inr results, w1) ->
  items_of results "artists" = inr (PList (artist :: more)) ->
  getitem artist "id" = inr artist_id ->
  oracle _ (artist_top_tracks artist_id) w1 = (inr tops, w2) ->
  getitem tops "tracks" = inr top ->
  truthy top = false ->
  search_and_play (PStr query) (PStr search_type) s =
    (Returned (mkdict
       [("status", PStr "error");
        ("message", PStr ("No " +:+ search_type +:+ " found for '" +:+ query +:+ "'"))]),
     {| self := self (with_device s);
        ext := {| world := w2;
                  calls := calls (ext (with_device s)) ++
                    [event (search (PStr query) "artist" 10);
                     event (artist_top_tracks artist_id)] |} |}).
Proof.
  intros Hsp Hdev Hmap Hsearch Hitems Hid Htops Htop Hempty.
  pose proof (with_device_client s) as Hsp1. rewrite Hsp in Hsp1.
  rewrite (search_and_play_after_device _ _ _ client Hsp Hdev).
  erewrite try_except_returned; [reflexivity|].
  unfold search_part. rewrite Hmap.
  erewrite (bind_returned (eval _)); [|reflexivity].
  rewrite (bind_returned _ _ _ _ _ (api_run _ _ _ _ _ _ Hsp1 Hsearch)).
  erewrite (bind_returned _ _ _ None); [reflexivity|].
  rewrite (bind_returned _ _ _ _ _
             (hit_other "artist" "track" _ _ _ ltac:(done))). cbv iota.
  rewrite (bind_returned _ _ _ _ _ (hit_found _ _ _ _ _ Hitems)).
  change (truthy (PList (artist :: more))) with true. cbv iota.
  rewrite (bind_returned _ _ _ _ _ (first_item_run _ _ _ artist _ Hitems eq_refl)).
  unfold item. rewrite Hid.
  erewrite (bind_returned (eval _)); [|reflexivity].
  erewrite (bind_returned (api _ _)); [|apply (api_run _ _ _ client); [exact Hsp1 | exact Htops]].
  rewrite Htop.
  erewrite (bind_returned (eval _)); [|reflexivity].
  rewrite Hempty. unfold ret. simpl. by rewrite <- app_assoc.
Qed.

(** X12.  A search type that cannot be a dict key (a list or a dict, as the
    model's arguments may hold) makes no search: the lookup in the type
    mapping raises and the error result carries that exception's text. *)
Theorem unhashable_search_type_is_an_error (query search_type : pyval)
    (s : Method W) client :
  sp (self s) = Some client ->
  truthy (device_id (self (with_device s))) = true ->
  (exists l, search_type = PList l) \/ (exists d, search_type = PDict d) ->
  search_and_play query search_type s =
    (Returned (mkdict [("status", PStr "error");
                       ("message", PStr (str_exn (TypeError search_type)))]),
     with_device s).
Proof.
  intros Hsp Hdev Hkind.
  rewrite (search_and_play_after_device _ _ _ client Hsp Hdev).
  rewrite (try_except_raised _ _ _ (TypeError search_type) (with_device s));
    [reflexivity|].
  unfold search_part.
  destruct Hkind as [[l ->]|[d ->]]; reflexivity.
Qed.

(** X13.  When the search call itself raises the client's exception, the
    result tells status 404 (device not found) and 403 (premium required)
    apart and otherwise carries the exception's text; nothing is played. *)
Theorem search_failure_is_classified (query search_type : pyval) (s : Method W)
    client (spotify_type : string) (http_status : Z) (description : string) w1 :
  sp (self s) = Some client ->
  truthy (device_id (self (with_device s))) = true ->
  type_mapping_get search_type = inr spotify_type ->
  oracle _ (search query spotify_type 10) (world (ext (with_device s))) =
    (inl (SpotifyException http_status description), w1) ->
  search_and_play query search_type s =
    (Returned (mkdict
       [("status", PStr "error");
        ("message",
         PStr (if (http_status =? 404)%Z then
                 "Device not found. Please open Spotify and start playing something first."
               else if (http_status =? 403)%Z then
                 "Premium account required for playback control."
               else "Spotify error: " +:+ description))]),
     {| self := self (with_device s);
        ext := {| world := w1;
                  calls := calls (ext (with_device s)) ++
                    [event (search query spotify_type 10)] |} |}).
Proof.
  intros Hsp Hdev Hmap Hsearch.
  pose proof (with_device_client s) as Hsp1. rewrite Hsp in Hsp1.
  rewrite (search_and_play_after_device _ _ _ client Hsp Hdev).
  erewrite try_except_raised;
    [| unfold search_part; rewrite Hmap;
       erewrite (bind_returned (eval _)); [|reflexivity];
       now rewrite (bind_raised _ _ _ _ _ (api_raise _ _ _ _ _ _ Hsp1 Hsearch)) ].
  unfold search_and_play_except, ret.
  destruct (http_status =? 404)%Z; [reflexivity|].
  destruct (http_status =? 403)%Z; reflexivity.
Qed.
End searching.

Section search_defaults.
Context `{Host W}.
Import spotify_service.

(** X14.  A [search] dispatch whose arguments give neither [query] nor
    [type] searches for the empty string among tracks: that search is the
    call logged after the device lookup. *)
Theorem search_defaults_to_empty_track_query (p : Process W) service client
    (args : dict) :
  _spotify_service p = Some service ->
  sp service = Some client ->
  let s := {| self := service; ext := process_ext p |} in
  truthy (device_id (self (with_device s))) = true ->
  args !! "action" = Some (PStr "search") ->
  args !! "query" = None ->
  args !! "type" = None ->
  exists k,
    log_of (main.execute_tool_call (PStr "control_spotify") (PDict args) p).2 =
      calls (ext (with_device s)) ++ event (search (PStr "") "track" 10) :: k.
Proof.
  intros Hservice Hsp s Hdev Haction Hquery Htype.
  destruct (search_and_play_searches_tracks "" "track" s client eq_refl Hsp Hdev)
    as (k & Hk).
  exists k. unfold main.execute_tool_call.
  change (eq_str (PStr "control_spotify") "control_spotify") with true. cbv iota.
  unfold bind at 1.
  rewrite (bind_returned _ _ _ _ _ (get_spotify_service_cached p service Hservice)).
  rewrite (bind_returned _ _ p (PStr "search") p)
    by (unfold main.get, ret; now rewrite Haction).
  change (in_strs (PStr "search") ["play"; "pause"; "skip"; "previous"]) with false.
  change (eq_str (PStr "search") "search") with true. cbv iota.
  rewrite (bind_returned _ _ p (PStr "") p)
    by (unfold main.get, ret; now rewrite Hquery).
  rewrite (bind_returned _ _ p (PStr "track") p)
    by (unfold main.get, ret; now rewrite Htype).
  unfold bind, method. fold s.
  destruct (search_and_play (PStr "") (PStr "track") s) as [[r|e] s'];
    simpl in *; exact Hk.
Qed.
End search_defaults.


Lemma artist_without_top_tracks_is_not_found_witness :
  let found :=
    PDict (mkdict
      [("artists", PDict (mkdict
         [("items", PList [PDict (mkdict [("id", PStr "a1");
                                          ("name", PStr "Nobody")])])]))]) in
  let s := {| self := scripted.service (PStr "laptop");
              ext := scripted.outside_of
                       (scripted.with_search (inr found) scripted.calm) |} in
  (spotify_service.search_and_play (H:=scripted.host)
     (PStr "Nobody") (PStr "artist") s).1 =
    Returned (mkdict [("status", PStr "error");
                      ("message", PStr "No artist found for 'Nobody'")]).
Proof.
  intros found s.
  rewrite (artist_without_top_tracks_is_not_found (H:=scripted.host)
             "Nobody" "artist" s toy.client found (world (ext s))
             (PDict (mkdict [("id", PStr "a1"); ("name", PStr "Nobody")])) []
             (PStr "a1") (PDict (mkdict [("tracks", PList [])])) (PList [])
             (world (ext s)));
    reflexivity.
Defined.

Lemma unhashable_search_type_is_an_error_witness :
  let s := {| self := scripted.service (PStr "laptop");
              ext := scripted.outside_of scripted.calm |} in
  spotify_service.search_and_play (H:=scripted.host) (PStr "Imagine") (PList []) s =
    (Returned (mkdict [("status", PStr "error"); ("message", PStr "<error>")]), s).
Proof.
  intros s.
  apply (unhashable_search_type_is_an_error (H:=scripted.host)
           (PStr "Imagine") (PList []) s toy.client);
    [reflexivity | reflexivity |].
  left. by exists [].
Defined.

Lemma search_failure_is_classified_witness :
  let s := {| self := scripted.service (PStr "laptop");
              ext := scripted.outside_of
                       (scripted.with_search
                          (inl (SpotifyException 404 "http status: 404"))
                          scripted.calm) |} in
  (spotify_service.search_and_play (H:=scripted.host)
     (PStr "Imagine") (PStr "track") s).1 =
    Returned (mkdict
      [("status", PStr "error");
       ("message",
        PStr "Device not found. Please open Spotify and start playing something first.")]).
Proof.
  intros s.
  rewrite (search_failure_is_classified (H:=scripted.host)
             (PStr "Imagine") (PStr "track") s toy.client "track" 404
             "http status: 404" (world (ext s)));
    reflexivity.
Defined.

Lemma search_defaults_to_empty_track_query_witness :
  exists k,
    log_of (main.execute_tool_call (H:=scripted.host) (PStr "control_spotify")
              (PDict (mkdict [("action", PStr "search")]))
              (scripted.running (PStr "laptop") scripted.calm)).2 =
      event (search (PStr "") "track" 10) :: k.
Proof.
  destruct (search_defaults_to_empty_track_query (H:=scripted.host)
              (scripted.running (PStr "laptop") scripted.calm)
              (scripted.service (PStr "laptop")) toy.client
              (mkdict [("action", PStr "search")])) as (k & Hk);
    try reflexivity.
  exists k. exact Hk.
Defined.

(** ** What every result looks like *)

Section yields_facts.
Context {S : Type}.

Lemma yields_ret {A} (Q : A -> Prop) (a : A) : Q a -> yields (S:=S) Q (ret a).
Proof. intros Ha s a' s' [= <- _]. exact Ha. Qed.

Lemma yields_raise {A} (Q : A -> Prop) e : yields (S:=S) Q (raise e).
Proof. intros s a s' [=]. Qed.

Lemma yields_bind {A B} (P : A -> Prop) (Q : B -> Prop) (m : M S A) (k : A -> M S B) :
  yields P m -> (forall a, P a -> yields Q (k a)) -> yields Q (bind m k).
Proof.
  intros Hm Hk s b s'. unfold bind.
  destruct (m s) as [[a|e] s1] eqn:E; [|discriminate].
  apply (Hk a (Hm _ _ _ E)).
Qed.

Lemma yields_any {A} (m : M S A) : yields (fun _ => True) m.
Proof. by intros s a s' _. Qed.

Lemma yields_then {A B} (Q : B -> Prop) (m : M S A) (k : A -> M S B) :
  (forall a, yields Q (k a)) -> yields Q (bind m k).
Proof. intros Hk. apply (yields_bind (fun _ => True)); [apply yields_any | auto]. Qed.

Lemma yields_try_except {A} (Q : A -> Prop) (m : M S A) (h : exn -> M S A) :
  yields Q m -> (forall e, yields Q (h e)) -> yields Q (try_except m h).
Proof.
  intros Hm Hh s a s'. unfold try_except.
  destruct (m s) as [[a'|e] s1] eqn:E.
  - intros [= <- <-]. exact (Hm _ _ _ E).
  - apply Hh.
Qed.
End yields_facts.

Ltac yields_structure :=
  lazymatch goal with
  | |- yields _ (ret _) => apply yields_ret
  | |- yields _ (raise _) => apply yields_raise
  | |- yields _ (bind _ _) => apply yields_then; intros ?
  | |- yields _ (try_except _ _) => apply yields_try_except; [|intros ?]
  | |- yields _ (if ?b then _ else _) => destruct b
  | |- yields _ (match ?x with _ => _ end) => destruct x
  end.

Section status.
Context `{Host W}.
Import spotify_service.

Ltac status_word :=
  solve [ exists "success"; split;
            [vm_compute; reflexivity | repeat constructor]
        | exists "error"; split;
            [vm_compute; reflexivity | repeat constructor]
        | exists "info"; split;
            [vm_compute; reflexivity | repeat constructor] ].

Lemma search_and_play_except_status e :
  has_status ["success"; "error"] (search_and_play_except e).
Proof.
  unfold search_and_play_except.
  destruct e; repeat case_match; status_word.
Qed.

Lemma control_playback_except_status e :
  has_status ["success"; "error"] (control_playback_except e).
Proof.
  unfold control_playback_except.
  destruct e; repeat case_match; status_word.
Qed.

Ltac status_leaf :=
  lazymatch goal with
  | |- has_status _ (spotify_service.search_and_play_except _) =>
      apply search_and_play_except_status
  | |- has_status _ (spotify_service.control_playback_except _) =>
      apply control_playback_except_status
  | |- has_status _ _ => status_word
  end.

Lemma control_playback_status action :
  yields (S:=Method W) (has_status ["success"; "error"]) (control_playback action).
Proof.
  unfold control_playback. repeat first [yields_structure | status_leaf].
Qed.

Lemma get_current_track_status :
  yields (S:=Method W) (has_status ["success"; "error"]) get_current_track.
Proof.
  unfold get_current_track. repeat first [yields_structure | status_leaf].
Qed.

Lemma search_and_play_status query search_type :
  yields (S:=Method W) (has_status ["success"; "error"])
    (search_and_play query search_type).
Proof.
  unfold search_and_play. cbv zeta.
  repeat first
    [ lazymatch goal with
      | |- yields _ (@bind _ (option _) _ _ _) =>
          apply (yields_bind
                   (fun o => forall r, o = Some r ->
                             has_status ["success"; "error"] r));
          [| intros [r|] Hr; apply yields_ret; [by apply Hr | status_leaf] ]
      | |- yields _ (ret (Some _)) =>
          apply yields_ret; intros r [= <-]; status_leaf
      | |- yields _ (ret None) => apply yields_ret; intros r [=]
      end
    | yields_structure | status_leaf ].
Qed.

Lemma method_yields {A} (Q : A -> Prop) service (m : M (Method W) A) :
  yields Q m -> yields (S:=Process W) Q (method service m).
Proof.
  intros Hm p a p'. unfold method.
  destruct (m _) as [r s] eqn:E. intros [= -> <-]. exact (Hm _ _ _ E).
Qed.

Lemma execute_tool_call_status tool_name arguments :
  yields (S:=Process W) (has_status ["success"; "error"; "info"])
    (main.execute_tool_call tool_name arguments).
Proof.
  unfold main.execute_tool_call, main.get, main.unknown_tool.
  assert (Hweak : forall d, has_status ["success"; "error"] d ->
                            has_status ["success"; "error"; "info"] d).
  { intros d (st & Hd & Hin). exists st. split; [done|].
    rewrite !elem_of_cons in *. tauto. }
  apply (yields_bind
           (fun o => forall r, o = Some r ->
                     has_status ["success"; "error"; "info"] r));
    [| intros [r|] Hr; apply yields_ret; [by apply Hr | status_leaf] ].
  repeat first
    [ lazymatch goal with
      | |- yields _ (bind (method _ ?m) _) =>
          apply (yields_bind (has_status ["success"; "error"]));
          [ apply method_yields;
            first [ apply control_playback_status | apply search_and_play_status
                  | apply get_current_track_status ]
          | intros r Hr; apply yields_ret; intros ? [= <-]; by apply Hweak ]
      | |- yields _ (ret (Some _)) =>
          apply yields_ret; intros r [= <-]; status_leaf
      | |- yields _ (ret None) => apply yields_ret; intros r [=]
      end
    | yields_structure ].
Qed.

(** X15.  Each of the three service methods returns a result for every
    input and every behaviour of the client: no exception escapes, and the
    result's [status] is [success] or [error]. *)
Theorem service_methods_always_answer (query search_type action : pyval)
    (s : Method W) :
  (exists r s', search_and_play query search_type s = (Returned r, s')
                /\ has_status ["success"; "error"] r)
  /\ (exists r s', control_playback action s = (Returned r, s')
                   /\ has_status ["success"; "error"] r)
  /\ (exists r s', get_current_track s = (Returned r, s')
                   /\ has_status ["success"; "error"] r).
Proof.
  split; [|split].
  - destruct (search_and_play_returns query search_type s) as (r & s' & E).
    exists r, s'. split; [exact E|]. exact (search_and_play_status _ _ _ _ _ E).
  - destruct (control_playback_returns action s) as (r & s' & E).
    exists r, s'. split; [exact E|]. exact (control_playback_status _ _ _ _ E).
  - destruct (get_current_track_returns s) as (r & s' & E).
    exists r, s'. split; [exact E|]. exact (get_current_track_status _ _ _ E).
Qed.

(** X16.  On a mapping of arguments the dispatcher returns a result for
    every tool name, and the result's [status] is [success], [error] or
    [info]. *)
Theorem dispatch_always_answers_a_mapping (tool_name : pyval) (args : dict)
    (p : Process W) :
  exists r p',
    main.execute_tool_call tool_name (PDict args) p = (Returned r, p')
    /\ has_status ["success"; "error"; "info"] r.
Proof.
  destruct (execute_tool_call_returns tool_name args p) as (r & p' & E).
  exists r, p'. split; [exact E|]. exact (execute_tool_call_status _ _ _ _ _ E).
Qed.

(** X17.  Arguments that are not a mapping (the model's argument string
    may parse to a list, a number, a string or null) make the dispatcher
    raise for the two tools that read them: [general_query] at once,
    [control_spotify] after getting the singleton.  [manage_calendar] and
    unknown tools never read the arguments and still return. *)
Theorem dispatch_rejects_other_arguments (arguments : pyval) (p : Process W) :
  (forall d, arguments <> PDict d) ->
  main.execute_tool_call (PStr "general_query") arguments p =
    (Raised (AttributeError arguments "get"), p)
  /\ main.execute_tool_call (PStr "control_spotify") arguments p =
       (Raised (AttributeError arguments "get"), (get_spotify_service p).2)
  /\ main.execute_tool_call (PStr "manage_calendar") arguments p =
       (Returned (mkdict [("status", PStr "info");
                          ("message", PStr "Calendar integration coming soon!")]), p)
  /\ (forall t, t ∉ ["control_spotify"; "manage_calendar"; "general_query"] ->
       main.execute_tool_call (PStr t) arguments p =
         (Returned (mkdict [("status", PStr "error");
                            ("message", PStr ("Unknown tool: " +:+ t))]), p)).
Proof.
  intros Hother.
  assert (Hget : forall S key default,
    main.get (S:=S) arguments key default = raise (AttributeError arguments "get")).
  { intros S key default. unfold main.get.
    destruct arguments; try reflexivity. by destruct (Hother d). }
  split; [|split; [|split]].
  - unfold main.execute_tool_call, bind. simpl. now rewrite Hget.
  - destruct (get_spotify_service_returns p) as (service & e & E).
    unfold main.execute_tool_call, bind. simpl. rewrite E, Hget. reflexivity.
  - reflexivity.
  - intros t Ht. unfold main.execute_tool_call, bind.
    rewrite !eq_str_neq by (intros ->; apply Ht; set_solver).
    reflexivity.
Qed.

(** X18.  The dispatcher talks to the Spotify integration only: whatever
    the tool and the arguments, and whether it returns or raises, it makes
    no model request and sends nothing on the channel. *)
Theorem dispatch_calls_the_integration_only (tool_name arguments : pyval)
    (p : Process W) :
  llm_requests (log_of (main.execute_tool_call tool_name arguments p).2) =
    llm_requests (log_of p)
  /\ sent (log_of (main.execute_tool_call tool_name arguments p).2) =
       sent (log_of p).
Proof.
  pose proof (execute_tool_call_quiet tool_name arguments p) as Hquiet.
  split; [exact (grows_llm_requests _ _ Hquiet) | exact (grows_sent _ _ Hquiet)].
Qed.
End status.

Lemma dispatch_rejects_other_arguments_witness :
  main.execute_tool_call (H:=scripted.host) (PStr "general_query") (PList [])
    (scripted.unborn scripted.calm) =
    (Raised (AttributeError (PList []) "get"), scripted.unborn scripted.calm).
Proof.
  apply (dispatch_rejects_other_arguments (H:=scripted.host) (PList [])
           (scripted.unborn scripted.calm)).
  intros d [=].
Defined.


(** ** More on the resolver, the endpoint and the channel *)

Section pipeline.
Context `{Host W}.

(** X19.  Of the tool invocations in the model's first choice only the
    first is honoured: the result is the tool call built from its name and
    its parsed arguments, whatever follows it and whatever other choices
    the response holds. *)
Theorem resolver_honours_first_tool_call (user_input : string)
    (context : option (list dict)) (s : Ext W)
    response w' choice others tool_call more args :
  let create :=
    chat_completions_create
      (llm_service.request (llm_service.build_messages user_input context)) in
  oracle _ create (world s) = (inr response, w') ->
  groq.choices response = choice :: others ->
  groq.tool_calls (groq.message choice) = Some (tool_call :: more) ->
  json_loads (groq.arguments (groq.function tool_call)) = inr args ->
  llm_service.process_command user_input context s =
    (Returned (mkdict
       [("type", PStr "tool_call");
        ("tool", PStr (groq.name (groq.function tool_call)));
        ("arguments", args);
        ("raw_response", opt_str (groq.content (groq.message choice)))]),
     {| world := w'; calls := calls s ++ [event create] |}).
Proof.
  intros create Hanswer Hchoices Hcalls Hloads.
  unfold llm_service.process_command, try_except, bind, call.
  fold create. rewrite Hanswer. simpl. rewrite Hchoices. simpl.
  rewrite Hcalls. simpl. rewrite Hloads. reflexivity.
Qed.

(** X20.  A response without tool invocation (none, or an empty list)
    becomes a direct response carrying the message's content; a response
    without any choice becomes an error result. *)
Theorem resolver_without_tool_call (user_input : string)
    (context : option (list dict)) (s : Ext W) response w' :
  let create :=
    chat_completions_create
      (llm_service.request (llm_service.build_messages user_input context)) in
  oracle _ create (world s) = (inr response, w') ->
  (forall choice others,
     groq.choices response = choice :: others ->
     groq.tool_calls (groq.message choice) = None
     \/ groq.tool_calls (groq.message choice) = Some [] ->
     llm_service.process_command user_input context s =
       (Returned (mkdict
          [("type", PStr "direct_response");
           ("content", opt_str (groq.content (groq.message choice)))]),
        {| world := w'; calls := calls s ++ [event create] |}))
  /\ (groq.choices response = [] ->
      llm_service.process_command user_input context s =
        (Returned (mkdict
           [("type", PStr "error");
            ("error", PStr (str_exn (IndexError (PList []))))]),
         {| world := w'; calls := calls s ++ [event create] |})).
Proof.
  intros create Hanswer.
  unfold llm_service.process_command, try_except, bind, call.
  fold create. rewrite Hanswer. simpl. split.
  - intros choice others -> [Hnone|Hempty]; simpl.
    + now rewrite Hnone.
    + now rewrite Hempty.
  - now intros ->.
Qed.

Lemma inside_resolver_mapping (user_input : string) (context : option (list dict))
    (p : Process W) :
  let create :=
    chat_completions_create
      (llm_service.request (llm_service.build_messages user_input context)) in
  (forall response choice others tool_call more v,
     (oracle _ create (world (process_ext p))).1 = inr response ->
     groq.choices response = choice :: others ->
     groq.tool_calls (groq.message choice) = Some (tool_call :: more) ->
     json_loads (groq.arguments (groq.function tool_call)) = inr v ->
     exists d, v = PDict d) ->
  exists result p1,
    main.inside (llm_service.process_command user_input context) p =
      (Returned result, p1)
    /\ resolved result
    /\ (forall v, result !! "arguments" = Some v -> exists d, v = PDict d).
Proof.
  intros create Hmapping.
  unfold main.inside, llm_service.process_command, try_except, bind, call.
  fold create.
  destruct (oracle _ create (world (process_ext p))) as [[e|response] w']; simpl.
  { eexists _, _. split; [reflexivity|]. split; [constructor|].
    intros v Hv. vm_compute in Hv. discriminate. }
  destruct (groq.choices response) as [|choice others] eqn:Hchoices; simpl.
  { eexists _, _. split; [reflexivity|]. split; [constructor|].
    intros v Hv. vm_compute in Hv. discriminate. }
  destruct (groq.tool_calls (groq.message choice))
    as [[|tool_call more]|] eqn:Hcalls; simpl;
    try (eexists _, _; split; [reflexivity|]; split; [constructor|];
         intros v Hv; destruct (groq.content (groq.message choice));
         vm_compute in Hv; discriminate).
  destruct (json_loads (groq.arguments (groq.function tool_call)))
    as [e|args] eqn:Hloads; simpl;
    (eexists _, _; split; [reflexivity|]; split; [constructor|]); intros v Hv.
  - vm_compute in Hv. discriminate.
  - change (Some args = Some v) in Hv. injection Hv as <-.
    exact (Hmapping _ _ _ _ _ _ eq_refl Hchoices Hcalls Hloads).
Qed.

(** X21.  The single-shot endpoint returns a response whenever the
    arguments of the honoured tool call, if there is one and it parses,
    are a mapping: every failure of the model or of the integration has
    then become data. *)
Theorem endpoint_answers_mapping_arguments (request : main.CommandRequest)
    (p : Process W) :
  let create :=
    chat_completions_create
      (llm_service.request
         (llm_service.build_messages (main.text request) (main.context request))) in
  (forall response choice others tool_call more v,
     (oracle _ create (world (process_ext p))).1 = inr response ->
     groq.choices response = choice :: others ->
     groq.tool_calls (groq.message choice) = Some (tool_call :: more) ->
     json_loads (groq.arguments (groq.function tool_call)) = inr v ->
     exists d, v = PDict d) ->
  exists response p', main.process_command request p = (Returned response, p').
Proof.
  intros create Hmapping. unfold main.process_command.
  destruct (inside_resolver_mapping (main.text request) (main.context request) p
              Hmapping) as (result & p1 & E & Hshape & Hargs).
  rewrite (bind_returned _ _ _ _ _ E).
  destruct Hshape as [d | c | n a raw].
  - rewrite (bind_returned _ _ _ _ _ (is_tool_call_error d p1)).
    now eexists _, _.
  - rewrite (bind_returned _ _ _ _ _ (is_tool_call_direct c p1)).
    destruct c; now eexists _, _.
  - rewrite (bind_returned _ _ _ _ _ (is_tool_call_tool n a raw p1)).
    destruct (Hargs a eq_refl) as (d & ->).
    destruct (negb (String.eqb n "")).
    + unfold bind at 1.
      rewrite (bind_returned _ _ p1 (PStr n) p1) by reflexivity.
      change (default (PDict ∅) (_ !! "arguments")) with (PDict d).
      destruct (execute_tool_call_returns (PStr n) d p1) as (r & p' & Er).
      rewrite (bind_returned _ _ _ _ _ Er).
      destruct raw; now eexists _, _.
    + destruct raw; now eexists _, _.
Qed.

(** X22.  Every execution result in a response of the single-shot
    endpoint has a [status] of [success], [error] or [info]: a failed
    action stays inside a response of type [tool_call]. *)
Theorem execution_result_has_a_status (request : main.CommandRequest)
    (p : Process W) response p' (d : dict) :
  main.process_command request p = (Returned response, p') ->
  main.execution_result response = Some d ->
  main.type response = "tool_call"
  /\ has_status ["success"; "error"; "info"] d.
Proof.
  intros Hrun Hd. unfold main.process_command in Hrun.
  destruct (inside_resolver (main.text request) (main.context request) p)
    as (result & p1 & E & Hshape).
  rewrite (bind_returned _ _ _ _ _ E) in Hrun. clear E.
  destruct Hshape as [description | c | n a raw].
  - rewrite (bind_returned _ _ _ _ _ (is_tool_call_error description p1)) in Hrun.
    cbv iota in Hrun. vm_compute in Hrun. injection Hrun as <- <-. discriminate.
  - rewrite (bind_returned _ _ _ _ _ (is_tool_call_direct c p1)) in Hrun.
    cbv iota in Hrun.
    destruct c; vm_compute in Hrun; injection Hrun as <- <-; discriminate.
  - rewrite (bind_returned _ _ _ _ _ (is_tool_call_tool n a raw p1)) in Hrun.
    destruct (negb (String.eqb n "")); cbv iota in Hrun.
    + unfold bind at 1 in Hrun.
      rewrite (bind_returned _ _ p1 (PStr n) p1) in Hrun by reflexivity.
      change (default (PDict ∅) (_ !! "arguments")) with a in Hrun.
      destruct (main.execute_tool_call (PStr n) a p1) as [[exec|e] p2] eqn:Eexec.
      * pose proof (execute_tool_call_status _ _ _ _ _ Eexec) as Hstatus.
        rewrite (bind_returned _ _ _ _ _ Eexec) in Hrun.
        destruct a, raw; vm_compute in Hrun; try discriminate;
          injection Hrun as <- <-; simpl in Hd; injection Hd as <-;
          (split; [reflexivity | exact Hstatus]).
      * rewrite (bind_raised _ _ _ _ _ Eexec) in Hrun. discriminate.
    + destruct a, raw; vm_compute in Hrun; try discriminate;
        injection Hrun as <- <-; discriminate.
Qed.
End pipeline.

Section sessions.
Context `{Host W}.

Lemma accept_log (p p0 : Process W) r :
  main.inside (call websocket_accept) p = (r, p0) ->
  llm_requests (log_of p0) = llm_requests (log_of p)
  /\ sent (log_of p0) = sent (log_of p).
Proof.
  unfold main.inside, call. intros Haccept.
  destruct (oracle _ websocket_accept (world (process_ext p))) as [answer w'].
  injection Haccept as _ <-. unfold log_of, llm_requests, sent. simpl.
  rewrite !omap_app. simpl. by rewrite !app_nil_r.
Qed.

(** Whatever one exchange does, the model was asked once, about that
    message alone, and at most one payload was handed to the channel. *)
Lemma exchange_log_any (data : string) (p : Process W) :
  let p' := (gateway.exchange data p).2 in
  llm_requests (log_of p') = llm_requests (log_of p) ++ [asked data]
  /\ length (sent (log_of p)) <= length (sent (log_of p'))
       <= S (length (sent (log_of p))).
Proof.
  unfold gateway.exchange.
  pose proof (respond_log data p) as Hlog.
  pose proof (grows_llm_requests _ _ Hlog) as Hl.
  pose proof (grows_sent _ _ Hlog) as Hs.
  unfold llm_requests in Hl. unfold sent in Hs.
  rewrite omap_app in Hl. rewrite omap_app in Hs.
  simpl in Hl, Hs. rewrite app_nil_r in Hs.
  destruct (gateway.respond data p) as [[r|e] p1] eqn:Er; simpl in Hl, Hs;
    unfold log_of in Hl, Hs.
  - rewrite (bind_returned _ _ _ _ _ Er).
    unfold bind, main.inside, call, ret.
    destruct (oracle _ (websocket_send_json r) (world (process_ext p1)))
      as [[e|[]] w']; unfold log_of, llm_requests, sent; simpl;
      rewrite !omap_app; simpl; rewrite Hl, Hs, app_nil_r, length_app; simpl;
      (split; [reflexivity | lia]).
  - rewrite (bind_raised _ _ _ _ _ Er). unfold log_of, llm_requests, sent. simpl.
    rewrite Hl, Hs. split; [reflexivity | lia].
Qed.

Lemma websocket_loop_log (incoming : list string) (p0 : Process W) :
  let p' := (main.websocket_loop incoming p0).2 in
  exists n,
    n <= length incoming
    /\ llm_requests (log_of p') =
         llm_requests (log_of p0) ++ map asked (take n incoming)
    /\ length (sent (log_of p0)) + n <= S (length (sent (log_of p')))
    /\ length (sent (log_of p')) <= length (sent (log_of p0)) + n.
Proof.
  revert p0. induction incoming as [|data later IH]; intros p0.
  - exists 0. simpl. rewrite app_nil_r. repeat split; lia.
  - cbv zeta. rewrite websocket_loop_cons.
    destruct (exchange_log_any data p0) as [Hl Hs].
    destruct (gateway.exchange data p0) as [[r|e] p1] eqn:E; simpl in Hl, Hs.
    + rewrite (bind_returned _ _ _ _ _ E).
      destruct (exchange_log _ _ _ _ E) as [_ Hs1].
      destruct (IH p1) as (n & Hn & Hl' & Hlow & Hhigh). cbv zeta in *.
      exists (S n). simpl. rewrite Hl', Hl, <- app_assoc.
      rewrite Hs1, length_app in Hlow, Hhigh. simpl in Hlow, Hhigh.
      repeat split; [lia | lia | lia].
    + rewrite (bind_raised _ _ _ _ _ E). exists 1. simpl. rewrite ?take_0.
      rewrite Hl. repeat split; lia.
Qed.

(** X23.  Once the connection is accepted the endpoint returns normally
    whatever the peer sends and whatever fails: a disconnect and a fault in
    an exchange both end it without an exception.  A failed accept is the
    one exception that leaves it. *)
Theorem channel_ends_quietly (incoming : list string) (p p0 : Process W) answer :
  main.inside (call websocket_accept) p = (answer, p0) ->
  match answer with
  | Returned _ =>
      exists p', main.websocket_endpoint incoming p = (Returned tt, p')
  | Raised e => main.websocket_endpoint incoming p = (Raised e, p0)
  end.
Proof.
  intros Haccept. unfold main.websocket_endpoint. destruct answer as [[]|e].
  - rewrite (bind_returned _ _ _ _ _ Haccept).
    destruct (try_except_total (main.websocket_loop incoming)
                (fun _ => ret tt) p0) as ([] & p' & E).
    + intros e s. now eexists _, _.
    + now exists p'.
  - now rewrite (bind_raised _ _ _ _ _ Haccept).
Qed.

(** X24.  A fault in one exchange (the dispatcher raising on arguments
    that are no mapping, a send that fails) ends the session there: the
    messages after it are never read, nothing more is asked or sent, and
    the endpoint returns in the state the fault left. *)
Theorem fault_ends_the_session (data : string) (later : list string)
    (p p0 p1 : Process W) e :
  main.inside (call websocket_accept) p = (Returned tt, p0) ->
  gateway.exchange data p0 = (Raised e, p1) ->
  main.websocket_endpoint (data :: later) p = (Returned tt, p1).
Proof.
  intros Haccept E. unfold main.websocket_endpoint.
  rewrite (bind_returned _ _ _ _ _ Haccept).
  rewrite (try_except_raised _ _ p0 e p1); [reflexivity|].
  now rewrite websocket_loop_cons, (bind_raised _ _ _ _ _ E).
Qed.

(** X25.  A session of any length asks the model about a prefix of the
    incoming messages, once each and in order, each request holding the
    system instruction and that one message: no earlier message or answer
    is ever passed as context.  It hands the channel one payload per
    message asked about, but for at most the last. *)
Theorem channel_asks_each_message_once (incoming : list string) (p : Process W) :
  let p' := (main.websocket_endpoint incoming p).2 in
  exists n,
    n <= length incoming
    /\ llm_requests (log_of p') =
         llm_requests (log_of p) ++ map asked (take n incoming)
    /\ length (sent (log_of p)) + n <= S (length (sent (log_of p')))
    /\ length (sent (log_of p')) <= length (sent (log_of p)) + n.
Proof.
  cbv zeta. unfold main.websocket_endpoint.
  destruct (main.inside (call websocket_accept) p) as [[[]|e] p0] eqn:Haccept;
    destruct (accept_log _ _ _ Haccept) as [Hl0 Hs0].
  - rewrite (bind_returned _ _ _ _ _ Haccept).
    destruct (websocket_loop_log incoming p0) as (n & Hn & Hl & Hlow & Hhigh).
    cbv zeta in *. exists n.
    assert (Hsame : (try_except (main.websocket_loop incoming)
                       (fun _ => ret tt) p0).2 =
                    (main.websocket_loop incoming p0).2).
    { unfold try_except. destruct (main.websocket_loop incoming p0) as [[[]|e] p1];
        reflexivity. }
    rewrite Hsame, Hl, Hl0. rewrite <- Hs0. repeat split; lia.
  - rewrite (bind_raised _ _ _ _ _ Haccept). exists 0. simpl.
    rewrite ?take_0, app_nil_r, Hl0, Hs0. repeat split; lia.
Qed.
End sessions.

(** ** Initialization *)

#[local] Instance client_among_preorder {W} client :
  PreOrder (client_among (W:=W) client).
Proof.
  split; [by left|].
  intros s1 s2 s3; unfold client_among.
  intros [H1 | [H1 | H1]] [H2 | [H2 | H2]]; rewrite ?H2, ?H1; auto.
Qed.

Section initialization.
Context `{Host W}.
Import spotify_service.

Lemma same_client_among {A} client (m : M (Method W) A) :
  steps (same_client (W:=W)) m -> steps (client_among client) m.
Proof. intros Hm s. left. apply Hm. Qed.

Lemma set_sp_among client (v : option Spotify) :
  v = None \/ v = Some client -> steps (client_among (W:=W) client) (set_sp v).
Proof. intros [-> | ->] s; [right; left | right; right]; reflexivity. Qed.

(** X26.  With one of the three Spotify credentials missing or empty the
    first use of the service builds one without a client and without a
    device, and touches nothing outside: no file is looked for, no token
    read, no request made. *)
Theorem missing_credentials_give_no_client (p : Process W) :
  has_credentials = false ->
  _spotify_service p = None ->
  exists service,
    get_spotify_service p =
      (Returned service,
       {| _spotify_service := Some service; process_ext := process_ext p |})
    /\ sp service = None /\ device_id service = PNone.
Proof.
  unfold has_credentials. intros Hmissing Hnone.
  unfold get_spotify_service, __init__, _initialize_spotify, try_except.
  rewrite Hnone, Hmissing. simpl. eexists. split; [|split]; reflexivity.
Qed.

Lemma _initialize_spotify_client (s : Method W) client :
  sp (self s) = None ->
  sp (self (_initialize_spotify s).2) = Some client ->
  has_credentials = true
  /\ client = {| auth_manager := cache_manager (scope (self s)) |}
  /\ exists w1 token w2,
       oracle _ (os_path_exists ".spotify_cache") (world (ext s)) = (inr true, w1)
       /\ oracle _ (get_cached_token (cache_manager (scope (self s)))) w1 =
            (inr token, w2)
       /\ truthy token = true.
Proof.
  intros Hnone. unfold _initialize_spotify, has_credentials.
  unfold try_except at 1.
  destruct (truthy_env (SPOTIFY_CLIENT_ID environ)
            && truthy_env (SPOTIFY_CLIENT_SECRET environ)
            && truthy_env (SPOTIFY_REDIRECT_URI environ)); simpl;
    [|unfold ret; simpl; congruence].
  unfold bind at 1, outside at 1, call at 1.
  destruct (oracle _ (os_path_exists ".spotify_cache") (world (ext s)))
    as [[e|[|]] w1] eqn:Hexists; cbn [negb]; try (unfold ret; simpl; congruence).
  unfold bind at 1, gets at 1. unfold bind at 1, outside at 1, call at 1.
  cbn [self ext world calls].
  fold (cache_manager (scope (self s))).
  destruct (oracle _ (get_cached_token (cache_manager (scope (self s)))) w1)
    as [[e|token] w2] eqn:Htoken; cbn [negb]; try (unfold ret; simpl; congruence).
  destruct (truthy token) eqn:Htruthy; cbn [negb];
    [|unfold ret; simpl; congruence].
  match goal with
  | |- context [bind ?before ?after ?s0] =>
      assert (Hrest : steps (client_among
                        {| auth_manager := cache_manager (scope (self s)) |})
                        (bind before after));
      [|specialize (Hrest s0); destruct (bind before after s0) as [[[]|e] s1]]
  end.
  { repeat first
      [ progress unfold item
      | steps_structure
      | apply set_sp_among; tauto
      | apply same_client_among;
        first [ apply outside_same_client | apply api_same_client
              | apply _get_device_same_client ] ]. }
  - unfold client_among in Hrest. simpl in *. intros Hclient.
    destruct Hrest as [Hsp|[Hsp|Hsp]]; rewrite Hsp in Hclient;
      [congruence | congruence |].
    injection Hclient as <-. split; [reflexivity|]. split; [reflexivity|].
    now exists w1, token, w2.
  - simpl. congruence.
Qed.

(** X27.  A service gets a client only if the three credentials are set,
    the token cache file exists and holds a token; the client is then the
    one built from the environment's credentials, and it reads
    [.spotify_cache] and never opens a browser: a service never starts an
    authorization of its own. *)
Theorem client_only_from_cached_token (e e' : Ext W) service client :
  __init__ e = (Returned service, e') ->
  sp service = Some client ->
  let manager := cache_manager (oauth_scope (auth_manager client)) in
  has_credentials = true
  /\ client = {| auth_manager := manager |}
  /\ exists w1 token w2,
       oracle _ (os_path_exists ".spotify_cache") (world e) = (inr true, w1)
       /\ oracle _ (get_cached_token manager) w1 = (inr token, w2)
       /\ truthy token = true.
Proof.
  unfold __init__.
  match goal with
  | |- context [_initialize_spotify ?s0] =>
      pose proof (_initialize_spotify_client s0) as Hclient;
      destruct (_initialize_spotify s0) as [[[]|x] s1]
  end; [|discriminate].
  intros [= <- <-] Hsp. simpl in Hclient.
  destruct (Hclient client eq_refl Hsp) as (Hcredentials & -> & Hrun).
  cbv zeta. simpl oauth_scope. now split.
Qed.

(** X28.  A valid cached token is not enough: when the profile request
    fails, or the profile has no [display_name], the client that was just
    set is discarded again, the device is not looked up, and the
    initialization still returns. *)
Theorem profile_failure_drops_the_client (s : Method W) w1 token w2 w3 answer w4 :
  let manager := cache_manager (scope (self s)) in
  has_credentials = true ->
  oracle _ (os_path_exists ".spotify_cache") (world (ext s)) = (inr true, w1) ->
  oracle _ (get_cached_token manager) w1 = (inr token, w2) ->
  truthy token = true ->
  oracle _ (is_token_expired manager token) w2 = (inr false, w3) ->
  oracle _ current_user w3 = (answer, w4) ->
  match answer with
  | inl _ => True
  | inr user => exists e, getitem user "display_name" = inl e
  end ->
  _initialize_spotify s =
    (Returned tt,
     {| self := {| scope := scope (self s); sp := None;
                   device_id := device_id (self s) |};
        ext := {| world := w4;
                  calls := calls (ext s) ++
                    [event (os_path_exists ".spotify_cache");
                     event (get_cached_token manager);
                     event (is_token_expired manager token);
                     event current_user] |} |}).
Proof.
  intros manager. unfold has_credentials. intros Hcredentials Hexists Htoken Htruthy
    Hexpired Hprofile Hfails.
  unfold _initialize_spotify. rewrite Hcredentials. cbn [negb].
  unfold api, item.
  unfold try_except, bind, outside, call, gets, set_sp, modify, ret.
  cbn [self ext world calls sp scope device_id].
  rewrite Hexists. cbn [negb self ext world calls sp scope device_id].
  fold (cache_manager (scope (self s))). fold manager.
  rewrite Htoken, Htruthy. cbn [negb self ext world calls sp scope device_id].
  rewrite Hexpired. cbn [self ext world calls sp scope device_id].
  rewrite Hprofile. rewrite <- !app_assoc. simpl.
  destruct answer as [e|user]; [reflexivity|].
  destruct Hfails as (e & ->). reflexivity.
Qed.

(** X29.  With credentials, a cached token that has not expired and a
    profile that has a [display_name], the service keeps the client and
    ends by looking up the playback device. *)
Theorem valid_token_keeps_the_client (s : Method W) w1 token w2 w3 user name w4 :
  let manager := cache_manager (scope (self s)) in
  has_credentials = true ->
  oracle _ (os_path_exists ".spotify_cache") (world (ext s)) = (inr true, w1) ->
  oracle _ (get_cached_token manager) w1 = (inr token, w2) ->
  truthy token = true ->
  oracle _ (is_token_expired manager token) w2 = (inr false, w3) ->
  oracle _ current_user w3 = (inr user, w4) ->
  getitem user "display_name" = inr name ->
  _initialize_spotify s =
    (Returned tt,
     (_get_device
        {| self := {| scope := scope (self s);
                      sp := Some {| auth_manager := manager |};
                      device_id := device_id (self s) |};
           ext := {| world := w4;
                     calls := calls (ext s) ++
                       [event (os_path_exists ".spotify_cache");
                        event (get_cached_token manager);
                        event (is_token_expired manager token);
                        event current_user] |} |}).2)
  /\ sp (self (_initialize_spotify s).2) = Some {| auth_manager := manager |}.
Proof.
  intros manager. unfold has_credentials. intros Hcredentials Hexists Htoken Htruthy
    Hexpired Hprofile Hname.
  assert (Hrun : _initialize_spotify s =
    (Returned tt,
     (_get_device
        {| self := {| scope := scope (self s);
                      sp := Some {| auth_manager := manager |};
                      device_id := device_id (self s) |};
           ext := {| world := w4;
                     calls := calls (ext s) ++
                       [event (os_path_exists ".spotify_cache");
                        event (get_cached_token manager);
                        event (is_token_expired manager token);
                        event current_user] |} |}).2)).
  { unfold _initialize_spotify. rewrite Hcredentials. cbn [negb].
    unfold api, item.
  unfold try_except, bind, outside, call, gets, set_sp, modify, ret.
    cbn [self ext world calls sp scope device_id].
    rewrite Hexists. cbn [negb self ext world calls sp scope device_id].
  fold (cache_manager (scope (self s))). fold manager.
  rewrite Htoken, Htruthy. cbn [negb self ext world calls sp scope device_id].
    rewrite Hexpired. cbn [self ext world calls sp scope device_id].
    rewrite Hprofile. rewrite <- !app_assoc. simpl app. rewrite Hname.
    cbn [eval ret].
    match goal with
    | |- context [_get_device ?s0] =>
        destruct (_get_device_returns s0) as (s' & ->)
    end.
    reflexivity. }
  split; [exact Hrun|]. rewrite Hrun. cbn [snd].
  match goal with
  | |- context [_get_device ?s0] => exact (_get_device_same_client s0)
  end.
Qed.

(** X30.  An expired token that carries no [refresh_token] is never
    refreshed: the lookup fails, the failure is swallowed, and the service
    is left without a client. *)
Theorem expired_token_needs_refresh_token (s : Method W) w1 token w2 w3 e :
  let manager := cache_manager (scope (self s)) in
  has_credentials = true ->
  oracle _ (os_path_exists ".spotify_cache") (world (ext s)) = (inr true, w1) ->
  oracle _ (get_cached_token manager) w1 = (inr token, w2) ->
  truthy token = true ->
  oracle _ (is_token_expired manager token) w2 = (inr true, w3) ->
  getitem token "refresh_token" = inl e ->
  _initialize_spotify s =
    (Returned tt,
     {| self := {| scope := scope (self s); sp := None;
                   device_id := device_id (self s) |};
        ext := {| world := w3;
                  calls := calls (ext s) ++
                    [event (os_path_exists ".spotify_cache");
                     event (get_cached_token manager);
                     event (is_token_expired manager token)] |} |}).
Proof.
  intros manager. unfold has_credentials. intros Hcredentials Hexists Htoken Htruthy
    Hexpired Hrefresh.
  unfold _initialize_spotify. rewrite Hcredentials. cbn [negb].
  unfold api, item.
  unfold try_except, bind, outside, call, gets, set_sp, modify, ret.
  cbn [self ext world calls sp scope device_id].
  rewrite Hexists. cbn [negb self ext world calls sp scope device_id].
  fold (cache_manager (scope (self s))). fold manager.
  rewrite Htoken, Htruthy. cbn [negb self ext world calls sp scope device_id].
  rewrite Hexpired, Hrefresh. rewrite <- !app_assoc. reflexivity.
Qed.
End initialization.

Lemma resolver_honours_first_tool_call_witness :
  let s := scripted.outside_of
             (scripted.with_model (inr scripted.two_calls) scripted.calm) in
  (llm_service.process_command (H:=scripted.host) "stop the music" None s).1 =
    Returned (mkdict
      [("type", PStr "tool_call"); ("tool", PStr "control_spotify");
       ("arguments", PDict (mkdict [("action", PStr "pause")]));
       ("raw_response", PStr "Pausing.")]).
Proof.
  intros s.
  rewrite (resolver_honours_first_tool_call (H:=scripted.host)
             "stop the music" None s scripted.two_calls (world s)
             {| groq.message :=
                  {| groq.content := Some "Pausing.";
                     groq.tool_calls :=
                       Some [ {| groq.function :=
                                   {| groq.name := "control_spotify";
                                      groq.arguments := toy.json_action "pause" |} |};
                              {| groq.function :=
                                   {| groq.name := "control_spotify";
                                      groq.arguments := toy.json_action "play" |} |} ] |} |}
             [ {| groq.message :=
                    {| groq.content := Some "Or not."; groq.tool_calls := None |} |} ]
             {| groq.function :=
                  {| groq.name := "control_spotify";
                     groq.arguments := toy.json_action "pause" |} |}
             [ {| groq.function :=
                    {| groq.name := "control_spotify";
                       groq.arguments := toy.json_action "play" |} |} ]
             (PDict (mkdict [("action", PStr "pause")])));
    reflexivity.
Defined.

Lemma resolver_without_tool_call_witness :
  let s := scripted.outside_of scripted.calm in
  (llm_service.process_command (H:=scripted.host) "hello" None s).1 =
    Returned (mkdict [("type", PStr "direct_response");
                      ("content", PStr "Hello.")]).
Proof.
  intros s.
  rewrite (proj1 (resolver_without_tool_call (H:=scripted.host) "hello" None s
                    (toy.text_reply "Hello.") (world s) eq_refl)
             {| groq.message :=
                  {| groq.content := Some "Hello."; groq.tool_calls := None |} |}
             [] eq_refl (or_introl eq_refl)).
  reflexivity.
Defined.

Lemma endpoint_answers_mapping_arguments_witness :
  exists response p',
    main.process_command (H:=scripted.host)
      {| main.text := "pause"; main.context := None |}
      (scripted.running (PStr "laptop")
         (scripted.with_model
            (inr (toy.tool_reply "control_spotify" (toy.json_action "pause")))
            scripted.calm)) =
      (Returned response, p').
Proof.
  apply (endpoint_answers_mapping_arguments (H:=scripted.host)).
  intros response choice others tool_call more v Hresponse Hchoice Hcalls Hloads.
  simpl in Hresponse. injection Hresponse as <-.
  simpl in Hchoice. injection Hchoice as <- <-.
  simpl in Hcalls. injection Hcalls as <- <-.
  vm_compute in Hloads. injection Hloads as <-. now eexists.
Defined.

Lemma execution_result_has_a_status_witness :
  let request := {| main.text := "pause"; main.context := None |} in
  let p := scripted.running (PStr "laptop")
             (scripted.with_model
                (inr (toy.tool_reply "control_spotify" (toy.json_action "pause")))
                scripted.calm) in
  match (main.process_command (H:=scripted.host) request p).1 with
  | Returned response =>
      main.type response = "tool_call"
      /\ exists d, main.execution_result response = Some d
                   /\ has_status ["success"; "error"; "info"] d
  | Raised _ => False
  end.
Proof.
  intros request p.
  pose (d := mkdict [("status", PStr "success");
                     ("message", PStr "Playback paused")]).
  assert (Hrun : exists response,
            (main.process_command (H:=scripted.host) request p).1 =
              Returned response
            /\ main.execution_result response = Some d).
  { eexists. split; [vm_compute; reflexivity | reflexivity]. }
  destruct Hrun as (response & Hrun & Hd).
  destruct (main.process_command (H:=scripted.host) request p)
    as [[r|e] p'] eqn:E; simpl in Hrun; [|discriminate].
  injection Hrun as ->. simpl.
  destruct (execution_result_has_a_status (H:=scripted.host) request p
              response p' d E Hd) as [Htype Hstatus].
  split; [exact Htype|]. now exists d.
Defined.

Lemma channel_ends_quietly_witness :
  exists p',
    main.websocket_endpoint (H:=scripted.host) ["hello"]
      (scripted.unborn scripted.calm) = (Returned tt, p').
Proof.
  exact (channel_ends_quietly (H:=scripted.host) ["hello"]
           (scripted.unborn scripted.calm) _ (Returned tt) eq_refl).
Defined.

Lemma fault_ends_the_session_witness :
  let p := scripted.unborn
             (scripted.with_model (inr (toy.tool_reply "general_query" "[]"))
                scripted.calm) in
  (main.websocket_endpoint (H:=scripted.host) ["what is up"; "pause"] p).1 =
    Returned tt.
Proof.
  intros p.
  pose (p0 := {| _spotify_service := None;
                 process_ext :=
                   {| world := world (process_ext p);
                      calls := [event websocket_accept] |} |}).
  assert (E : gateway.exchange (H:=scripted.host) "what is up" p0 =
                (Raised (AttributeError (PList []) "get"),
                 (gateway.exchange (H:=scripted.host) "what is up" p0).2)).
  { apply injective_projections; [vm_compute; reflexivity | reflexivity]. }
  now rewrite (fault_ends_the_session (H:=scripted.host) "what is up" ["pause"]
                 p p0 _ _ eq_refl E).
Defined.

Lemma missing_credentials_give_no_client_witness :
  exists service,
    spotify_service.get_spotify_service (H:=scripted.host_with scripted.no_secret)
      (scripted.unborn scripted.calm) =
      (Returned service,
       {| _spotify_service := Some service;
          process_ext := scripted.outside_of scripted.calm |})
    /\ sp service = None /\ device_id service = PNone.
Proof.
  apply (missing_credentials_give_no_client
           (H:=scripted.host_with scripted.no_secret)
           (scripted.unborn scripted.calm)); reflexivity.
Defined.

Lemma client_only_from_cached_token_witness :
  exists service e' client,
    spotify_service.__init__ (H:=scripted.host)
      (scripted.outside_of scripted.calm) = (Returned service, e')
    /\ sp service = Some client
    /\ has_credentials (H:=scripted.host) = true
    /\ client =
         {| auth_manager :=
              cache_manager (H:=scripted.host)
                (oauth_scope (auth_manager client)) |}.
Proof.
  eexists _, _, _. split; [vm_compute; reflexivity|]. split; [reflexivity|].
  match goal with
  | |- _ /\ ?client = _ =>
      destruct (client_only_from_cached_token (H:=scripted.host)
                  (scripted.outside_of scripted.calm) _ _ client
                  ltac:(vm_compute; reflexivity) eq_refl)
        as (Hcredentials & Hclient & _)
  end.
  split; [exact Hcredentials | exact Hclient].
Defined.

Lemma profile_failure_drops_the_client_witness :
  let w := scripted.with_profile (inr (PDict ∅)) scripted.calm in
  let s := {| self := toy.failed_service; ext := scripted.outside_of w |} in
  sp (self (spotify_service._initialize_spotify (H:=scripted.host) s).2) = None.
Proof.
  intros w s.
  rewrite (profile_failure_drops_the_client (H:=scripted.host) s w
             (PDict (mkdict [("access_token", PStr "t");
                             ("refresh_token", PStr "r")]))
             w w (inr (PDict ∅)) w eq_refl eq_refl eq_refl eq_refl eq_refl eq_refl
             (ex_intro _ (KeyError (PStr "display_name")) eq_refl)).
  reflexivity.
Defined.

Lemma valid_token_keeps_the_client_witness :
  let s := {| self := toy.failed_service;
              ext := scripted.outside_of scripted.calm |} in
  sp (self (spotify_service._initialize_spotify (H:=scripted.host) s).2) =
    Some {| auth_manager :=
              cache_manager (H:=scripted.host) "user-read-playback-state" |}.
Proof.
  intros s.
  exact (proj2 (valid_token_keeps_the_client (H:=scripted.host) s scripted.calm
                  (PDict (mkdict [("access_token", PStr "t");
                                  ("refresh_token", PStr "r")]))
                  scripted.calm scripted.calm
                  (PDict (mkdict [("display_name", PStr "someone")]))
                  (PStr "someone") scripted.calm
                  eq_refl eq_refl eq_refl eq_refl eq_refl eq_refl eq_refl)).
Defined.

Lemma expired_token_needs_refresh_token_witness :
  let s := {| self := toy.failed_service;
              ext := scripted.outside_of scripted.stale |} in
  sp (self (spotify_service._initialize_spotify (H:=scripted.host) s).2) = None.
Proof.
  intros s.
  rewrite (expired_token_needs_refresh_token (H:=scripted.host) s scripted.stale
             (PDict (mkdict [("access_token", PStr "t")]))
             scripted.stale scripted.stale (KeyError (PStr "refresh_token"))
             eq_refl eq_refl eq_refl eq_refl eq_refl eq_refl).
  reflexivity.
Defined.
